(** * Unalix: the rule engine and URL normaliser of [unalix/_utils.py]

    A shallow embedding of the functions of [unalix/_utils.py] that clean a
    URL ([parse_rules], [requote_uri], [unquote_unreserved]), normalise it
    ([parse_url], [prepend_scheme_if_needed], [urldefragauth], [clear_url])
    and follow redirects ([unshort_url]), and the properties of them that
    the specification states.

    Python's [str] is a sequence of Unicode code points, and the functions
    below depend on that (percent-decoding produces bytes that are read back
    as UTF-8, quoting encodes to UTF-8 first), so a [str] is a list of code
    points here.  The parts of the Python standard library the code calls
    are modelled in [Module Py] after CPython 3.11 with its security fixes
    ([urlsplit] drops tabs and line ends and leading control characters, a
    scheme starts with a letter, an octet of an IPv4 address has no leading
    zero); what depends on the Unicode character database, on the parser of
    IPv6 addresses, on the network or on [unalix/_config.py] (which is not
    part of the sources at hand) is a field of a record the definitions
    take. *)

From Stdlib Require Import Ascii String List NArith ZArith Bool Lia.
Import ListNotations.

Local Open Scope string_scope.
Local Open Scope list_scope.
Local Open Scope N_scope.

(** ** Python values, exceptions and results *)

Abbreviation codepoint := N (only parsing).

(** A [str]: its code points, each at most [0x10FFFF]. *)
Definition str := list codepoint.

(** The [str] of a literal of the source. *)
Definition py (s : string) : str := map N_of_ascii (list_ascii_of_string s).

(** The exceptions the modelled code raises.  [UnicodeError] stands for
    [UnicodeEncodeError] and the [UnicodeError] of the idna codec, which are
    subclasses of [ValueError]; [HTTPInvalidURL] for [http.client.InvalidURL],
    which is not the [InvalidURL] of [unalix]; [OSError] for what the HTTP
    connection raises once it is used. *)
Inductive exn : Type :=
| InvalidURL
| InvalidScheme
| ValueError
| UnicodeError
| AttributeError
| TypeError
| HTTPInvalidURL
| OSError.

(** [isinstance(e, ValueError)]. *)
Definition is_ValueError (e : exn) : bool :=
  match e with
  | ValueError | UnicodeError => true
  | _ => false
  end.

Inductive result (A : Type) : Type :=
| Ok (a : A)
| Raise (e : exn).
Arguments Ok {A} a.
Arguments Raise {A} e.

Definition bind {A B : Type} (r : result A) (k : A -> result B) : result B :=
  match r with
  | Ok a => k a
  | Raise e => Raise e
  end.

Notation "x <- e ;; k" := (bind e (fun x => k))
  (at level 61, e at next level, right associativity).
Notation "' p <- e ;; k" := (bind e (fun x => let p := x in k))
  (at level 61, p pattern, e at next level, right associativity).

(** [try: body except ValueError: handler]. *)
Definition try_except_ValueError {A : Type} (body handler : result A) : result A :=
  match body with
  | Ok a => Ok a
  | Raise e => if is_ValueError e then handler else Raise e
  end.

Fixpoint mapM {A B : Type} (f : A -> result B) (l : list A) : result (list B) :=
  match l with
  | [] => Ok []
  | a :: t => b <- f a ;; bs <- mapM f t ;; Ok (b :: bs)
  end.

(** A coroutine object: what calling an [async def] function returns.  Its
    body runs when it is awaited.  Like every object whose class defines
    neither [__bool__] nor [__len__], it is true in a condition. *)
Inductive Coroutine (A : Type) : Type :=
| Coro (body : unit -> A).
Arguments Coro {A} body.

Definition await {A : Type} (c : Coroutine A) : A :=
  match c with Coro body => body tt end.

Definition truth {A : Type} (c : Coroutine A) : bool := true.

(** The objects [clear_url] is given in the specification's examples. *)
Inductive object : Type :=
| PyNone
| PyStr (s : str).

(** ** The Python standard library *)

Module Py.

(** *** [str] methods *)

Definition str_eqb (a b : str) : bool :=
  if list_eq_dec N.eq_dec a b then true else false.

(** [c in s], for a character [c]. *)
Definition contains (c : codepoint) (s : str) : bool := existsb (N.eqb c) s.

(** [x in l], for a list of [str]. *)
Definition str_in (x : str) (l : list str) : bool := existsb (str_eqb x) l.

Fixpoint startswith (s p : str) : bool :=
  match p, s with
  | [], _ => true
  | _ :: _, [] => false
  | a :: p', b :: s' => (a =? b) && startswith s' p'
  end.

Definition endswith (s p : str) : bool := startswith (rev s) (rev p).

(** [s.split(sep)], for a separator of one character. *)
Fixpoint split (sep : codepoint) (s : str) : list str :=
  match s with
  | [] => [[]]
  | c :: t =>
      if c =? sep then [] :: split sep t
      else match split sep t with
           | p :: ps => (c :: p) :: ps
           | [] => [[c]]
           end
  end.

(** [sep.join(l)]. *)
Definition join (l : list str) : str := concat l.

(** [s.find(c)]: [None] stands for [-1]. *)
Fixpoint find (c : codepoint) (s : str) : option nat :=
  match s with
  | [] => None
  | a :: t => if a =? c then Some O
              else match find c t with Some i => Some (S i) | None => None end
  end.

(** [s.split(c, 1)] when [c in s]: the text before the first [c] and after. *)
Fixpoint split1 (c : codepoint) (s : str) : str * str :=
  match s with
  | [] => ([], [])
  | a :: t => if a =? c then ([], t)
              else let '(h, r) := split1 c t in (a :: h, r)
  end.

(** [s.rsplit(c, 1)[-1]]: the text after the last [c], all of [s] without. *)
Fixpoint rsplit1_last (c : codepoint) (s : str) : str :=
  match s with
  | [] => []
  | a :: t => if contains c t then rsplit1_last c t
              else if a =? c then t else a :: t
  end.

Definition isascii_char (c : codepoint) : bool := c <? 128.
Definition isascii (s : str) : bool := forallb isascii_char s.

Definition is_upper (c : codepoint) : bool := (65 <=? c) && (c <=? 90).
Definition is_lower (c : codepoint) : bool := (97 <=? c) && (c <=? 122).
Definition is_digit (c : codepoint) : bool := (48 <=? c) && (c <=? 57).

(** [s.lower()] on ASCII text. *)
Definition lower_char (c : codepoint) : codepoint := if is_upper c then c + 32 else c.
Definition lower (s : str) : str := map lower_char s.

(** What the Unicode character database decides for the code points from
    128 on: [str.isalnum], the decimal digit value [int] reads, NFKC
    normalisation, and the idna codec; and whether [urlsplit] accepts a
    netloc that has both ['['] and [']'] (its check of the host in brackets
    asks the parser of IPv6 addresses). *)
Record Unicode : Type := {
  uni_isalnum : codepoint -> bool;
  uni_decimal : codepoint -> option N;
  uni_nfkc : str -> str;
  uni_idna : str -> result str;
  bracketed_netloc : str -> bool
}.

Section WithUnicode.
Context (U : Unicode).

Definition isalnum_char (c : codepoint) : bool :=
  if isascii_char c then is_upper c || is_lower c || is_digit c
  else uni_isalnum U c.

(** [s.isalnum()]. *)
Definition isalnum (s : str) : bool :=
  match s with
  | [] => false
  | _ => forallb isalnum_char s
  end.

(** The value of one digit in base 16, as [int] reads it. *)
Definition hex_value (c : codepoint) : option N :=
  if is_digit c then Some (c - 48)
  else if (97 <=? c) && (c <=? 102) then Some (c - 87)
  else if (65 <=? c) && (c <=? 70) then Some (c - 55)
  else if isascii_char c then None
  else uni_decimal U c.

(** [int(h, 16)] for [h] of two alphanumeric characters. *)
Definition int16 (h : str) : result N :=
  match h with
  | [a; b] =>
      match hex_value a, hex_value b with
      | Some x, Some y => Ok (16 * x + y)
      | _, _ => Raise ValueError
      end
  | _ => Raise ValueError
  end.

End WithUnicode.

(** [chr(n)]. *)
Definition chr (n : N) : result codepoint :=
  if n <=? 0x10FFFF then Ok n else Raise ValueError.

(** *** UTF-8 *)

Definition is_surrogate (c : codepoint) : bool := (0xD800 <=? c) && (c <=? 0xDFFF).

(** [c.encode("utf-8")], errors strict. *)
Definition utf8_encode_char (c : codepoint) : result (list N) :=
  if c <? 0x80 then Ok [c]
  else if c <? 0x800 then Ok [0xC0 + c / 64; 0x80 + c mod 64]
  else if is_surrogate c then Raise UnicodeError
  else if c <? 0x10000 then
    Ok [0xE0 + c / 4096; 0x80 + (c / 64) mod 64; 0x80 + c mod 64]
  else
    Ok [0xF0 + c / 262144; 0x80 + (c / 4096) mod 64;
        0x80 + (c / 64) mod 64; 0x80 + c mod 64].

Definition utf8_encode (s : str) : result (list N) :=
  bs <- mapM utf8_encode_char s ;; Ok (concat bs).

Definition is_cont (b : N) : bool := (0x80 <=? b) && (b <=? 0xBF).

(** Whether [b1] may follow the lead byte [b0] of a sequence of three or
    four bytes. *)
Definition second_ok (b0 b1 : N) : bool :=
  is_cont b1
  && negb ((b0 =? 0xE0) && (b1 <? 0xA0))
  && negb ((b0 =? 0xED) && (0xA0 <=? b1))
  && negb ((b0 =? 0xF0) && (b1 <? 0x90))
  && negb ((b0 =? 0xF4) && (0x90 <=? b1)).

Definition REPLACEMENT : codepoint := 0xFFFD.

(** [bs.decode("utf-8", "replace")]: every maximal prefix of a sequence that
    cannot be completed becomes one U+FFFD. *)
Fixpoint utf8_decode_replace (bs : list N) : str :=
  match bs with
  | [] => []
  | b0 :: t0 =>
      if b0 <? 0x80 then b0 :: utf8_decode_replace t0
      else if b0 <? 0xC2 then REPLACEMENT :: utf8_decode_replace t0
      else if b0 <? 0xE0 then
        match t0 with
        | b1 :: t1 =>
            if is_cont b1
            then ((b0 - 0xC0) * 64 + (b1 - 0x80)) :: utf8_decode_replace t1
            else REPLACEMENT :: utf8_decode_replace t0
        | [] => [REPLACEMENT]
        end
      else if b0 <? 0xF0 then
        match t0 with
        | b1 :: t1 =>
            if second_ok b0 b1 then
              match t1 with
              | b2 :: t2 =>
                  if is_cont b2
                  then ((b0 - 0xE0) * 4096 + (b1 - 0x80) * 64 + (b2 - 0x80))
                         :: utf8_decode_replace t2
                  else REPLACEMENT :: utf8_decode_replace t1
              | [] => [REPLACEMENT]
              end
            else REPLACEMENT :: utf8_decode_replace t0
        | [] => [REPLACEMENT]
        end
      else if b0 <? 0xF5 then
        match t0 with
        | b1 :: t1 =>
            if second_ok b0 b1 then
              match t1 with
              | b2 :: t2 =>
                  if is_cont b2 then
                    match t2 with
                    | b3 :: t3 =>
                        if is_cont b3
                        then ((b0 - 0xF0) * 262144 + (b1 - 0x80) * 4096
                              + (b2 - 0x80) * 64 + (b3 - 0x80))
                               :: utf8_decode_replace t3
                        else REPLACEMENT :: utf8_decode_replace t2
                    | [] => [REPLACEMENT]
                    end
                  else REPLACEMENT :: utf8_decode_replace t1
              | [] => [REPLACEMENT]
              end
            else REPLACEMENT :: utf8_decode_replace t0
        | [] => [REPLACEMENT]
        end
      else REPLACEMENT :: utf8_decode_replace t0
  end.

(** *** [urllib.parse.quote] and [urllib.parse.unquote] *)

Definition PERCENT : codepoint := 37.

Definition ALWAYS_SAFE : str :=
  py "ABCDEFGHIJKLMNOPQRSTUVWXYZabcdefghijklmnopqrstuvwxyz0123456789_.-~".

Definition hex_upper (n : N) : codepoint := if n <? 10 then 48 + n else 55 + n.

(** ['%{:02X}'.format(b)]. *)
Definition percent_hex (b : N) : str := [PERCENT; hex_upper (b / 16); hex_upper (b mod 16)].

(** One byte through the quoter; [safe] counts with its ASCII characters only. *)
Definition quote_byte (safe : str) (b : N) : str :=
  if contains b ALWAYS_SAFE || contains b (filter isascii_char safe)
  then [b] else percent_hex b.

(** [urllib.parse.quote(s, safe=safe)]. *)
Definition quote (s safe : str) : result str :=
  bs <- utf8_encode s ;; Ok (concat (map (quote_byte safe) bs)).

(** The value of a digit of [_hexdig]. *)
Definition hexdig (c : N) : option N :=
  if is_digit c then Some (c - 48)
  else if (97 <=? c) && (c <=? 102) then Some (c - 87)
  else if (65 <=? c) && (c <=? 70) then Some (c - 55)
  else None.

(** What [unquote_to_bytes] appends for one item that followed a ['%']. *)
Definition unquote_item (item : list N) : list N :=
  match item with
  | a :: b :: rest =>
      match hexdig a, hexdig b with
      | Some x, Some y => (16 * x + y) :: rest
      | _, _ => PERCENT :: item
      end
  | _ => PERCENT :: item
  end.

(** [urllib.parse.unquote_to_bytes], on ASCII text. *)
Definition unquote_to_bytes (s : list N) : list N :=
  match split PERCENT s with
  | first :: items => first ++ concat (map unquote_item items)
  | [] => s
  end.

(** The maximal runs of ASCII and of other characters of [s], in order:
    what [_asciire.split] cuts [s] into. *)
Fixpoint ascii_runs (s : str) : list (bool * str) :=
  match s with
  | [] => []
  | c :: t =>
      let k := isascii_char c in
      match ascii_runs t with
      | (k', r) :: rs => if Bool.eqb k k' then (k, c :: r) :: rs
                         else (k, [c]) :: (k', r) :: rs
      | [] => [(k, [c])]
      end
  end.

(** [urllib.parse.unquote(s)]: encoding utf-8, errors replace. *)
Definition unquote (s : str) : str :=
  if contains PERCENT s then
    concat (map (fun kr : bool * str =>
                   if fst kr then utf8_decode_replace (unquote_to_bytes (snd kr))
                   else snd kr)
                (ascii_runs s))
  else s.

(** *** [urllib.parse.urlsplit], [urlparse], [urlunsplit], [urlunparse] *)

Definition scheme_chars : str :=
  py "abcdefghijklmnopqrstuvwxyzABCDEFGHIJKLMNOPQRSTUVWXYZ0123456789+-.".

Definition uses_netloc : list str :=
  map py ["" ; "ftp"; "http"; "gopher"; "nntp"; "telnet"; "imap"; "wais"; "file";
          "mms"; "https"; "shttp"; "snews"; "prospero"; "rtsp"; "rtspu"; "rsync";
          "svn"; "svn+ssh"; "sftp"; "nfs"; "git"; "git+ssh"; "ws"; "wss"].

Definition uses_params : list str :=
  map py ["" ; "ftp"; "hdl"; "prospero"; "http"; "imap"; "https"; "shttp"; "rtsp";
          "rtspu"; "sip"; "sips"; "mms"; "sftp"; "tel"].

Definition nonempty (s : str) : bool := match s with [] => false | _ => true end.

(** The text before the first character that [stop] holds of, and from it on. *)
Fixpoint break_at (stop : codepoint -> bool) (s : str) : str * str :=
  match s with
  | [] => ([], [])
  | c :: t => if stop c then ([], s)
              else let '(h, r) := break_at stop t in (c :: h, r)
  end.

(** [_splitnetloc(url, 2)]. *)
Definition _splitnetloc (url : str) : str * str :=
  break_at (fun c => contains c (py "/?#")) (skipn 2 url).

(** [(s[:i+1], s[i+1:])] for [i = s.rfind(c)], which is [-1] without a [c]. *)
Fixpoint rcut (c : codepoint) (s : str) : str * str :=
  match s with
  | [] => ([], [])
  | a :: t => if contains c t then let '(h, r) := rcut c t in (a :: h, r)
              else if a =? c then ([a], t) else ([], a :: t)
  end.

(** [_splitparams(url)], for a [url] with a [';']. *)
Definition _splitparams (url : str) : str * str :=
  let '(head, tail) := rcut 47 url in
  if contains 59 tail then let '(a, b) := split1 59 tail in (head ++ a, b)
  else (url, []).

(** [_WHATWG_C0_CONTROL_OR_SPACE]: the characters up to the space. *)
Definition c0_control_or_space (c : codepoint) : bool := c <=? 32.

(** [s.lstrip(chars)] and [s.strip(chars)], for the characters [chars]
    holds of. *)
Fixpoint lstrip_chars (chars : codepoint -> bool) (s : str) : str :=
  match s with
  | a :: t => if chars a then lstrip_chars chars t else s
  | [] => []
  end.

Definition strip_chars (chars : codepoint -> bool) (s : str) : str :=
  rev (lstrip_chars chars (rev (lstrip_chars chars s))).

(** [_UNSAFE_URL_BYTES_TO_REMOVE]: tab, carriage return and line feed, which
    [urlsplit] deletes wherever they are. *)
Definition unsafe_url_byte (c : codepoint) : bool := (c =? 9) || (c =? 13) || (c =? 10).

Definition remove_unsafe (s : str) : str := filter (fun c => negb (unsafe_url_byte c)) s.

(** [url[0].isascii() and url[0].isalpha()]. *)
Definition starts_with_letter (url : str) : bool :=
  match url with
  | c :: _ => isascii_char c && (is_upper c || is_lower c)
  | [] => false
  end.

(** The scheme step of [urlsplit]: with [i = url.find(':')], when [i > 0],
    [url[0]] is an ASCII letter and [url[1:i]] has characters of
    [scheme_chars] only, the scheme is [url[:i].lower()] and the URL goes on
    at [url[i+1:]]. *)
Definition split_scheme (url scheme : str) : str * str :=
  match find 58 url with
  | Some (S i) =>
      if starts_with_letter url
         && forallb (fun c => contains c scheme_chars) (skipn 1 (firstn (S i) url))
      then (lower (firstn (S i) url), skipn (S (S i)) url)
      else (scheme, url)
  | _ => (scheme, url)
  end.

Definition SplitResult : Type := str * str * str * str * str.
Definition ParseResult : Type := str * str * str * str * str * str.

Section WithUnicode.
Context (U : Unicode).

Definition _checknetloc (netloc : str) : result unit :=
  if negb (nonempty netloc) || isascii netloc then Ok tt
  else
    let n := filter (fun c => negb (contains c (py "@:#?"))) netloc in
    let netloc2 := uni_nfkc U n in
    if str_eqb n netloc2 then Ok tt
    else if existsb (fun c => contains c netloc2) (py "/?#@:")
         then Raise ValueError else Ok tt.

(** [urllib.parse.urlsplit(url, scheme)]. *)
Definition urlsplit (url scheme : str) : result SplitResult :=
  let url := lstrip_chars c0_control_or_space url in
  let scheme := strip_chars c0_control_or_space scheme in
  let url := remove_unsafe url in
  let scheme := remove_unsafe scheme in
  let '(scheme, url) := split_scheme url scheme in
  '(netloc, url) <-
    (if startswith url (py "//") then
       let '(netloc, rest) := _splitnetloc url in
       if (contains 91 netloc && negb (contains 93 netloc))
          || (contains 93 netloc && negb (contains 91 netloc))
       then Raise ValueError
       else if contains 91 netloc && contains 93 netloc
               && negb (bracketed_netloc U netloc)
       then Raise ValueError
       else Ok (netloc, rest)
     else Ok ([], url)) ;;
  let '(url, fragment) := if contains 35 url then split1 35 url else (url, []) in
  let '(url, query) := if contains 63 url then split1 63 url else (url, []) in
  _ <- _checknetloc netloc ;;
  Ok (scheme, netloc, url, query, fragment).

(** [urllib.parse.urlparse(url, scheme)]. *)
Definition urlparse (url scheme : str) : result ParseResult :=
  '(scheme, netloc, url, query, fragment) <- urlsplit url scheme ;;
  let '(url, params) :=
    if str_in scheme uses_params && contains 59 url then _splitparams url
    else (url, []) in
  Ok (scheme, netloc, url, params, query, fragment).

End WithUnicode.

(** [urllib.parse.urlunsplit]. *)
Definition urlunsplit (c : SplitResult) : str :=
  let '(scheme, netloc, url, query, fragment) := c in
  let url :=
    if nonempty netloc
       || (nonempty scheme && str_in scheme uses_netloc
           && negb (startswith url (py "//")))
    then
      let url := if nonempty url && negb (startswith url (py "/"))
                 then py "/" ++ url else url in
      py "//" ++ netloc ++ url
    else url in
  let url := if nonempty scheme then scheme ++ py ":" ++ url else url in
  let url := if nonempty query then url ++ py "?" ++ query else url in
  let url := if nonempty fragment then url ++ py "#" ++ fragment else url in
  url.

(** [urllib.parse.urlunparse]. *)
Definition urlunparse (c : ParseResult) : str :=
  let '(scheme, netloc, url, params, query, fragment) := c in
  let url := if nonempty params then url ++ py ";" ++ params else url in
  urlunsplit (scheme, netloc, url, query, fragment).

(** *** [os.path] (posixpath) *)

Fixpoint lstrip (c : codepoint) (s : str) : str :=
  match s with
  | a :: t => if a =? c then lstrip c t else s
  | [] => []
  end.

Definition rstrip (c : codepoint) (s : str) : str := rev (lstrip c (rev s)).

(** [os.path.dirname(p)]. *)
Definition dirname (p : str) : str :=
  let head := fst (rcut 47 p) in
  if nonempty head && negb (forallb (N.eqb 47) head) then rstrip 47 head else head.

(** [os.path.join(a, b)]. *)
Definition path_join (a b : str) : str :=
  if startswith b (py "/") then b
  else if negb (nonempty a) || endswith a (py "/") then a ++ b
  else a ++ py "/" ++ b.

(** *** [ipaddress] *)

(** [IPv4Address._parse_octet]: one to three ASCII digits, with no leading
    zero unless the octet is ["0"]. *)
Definition _parse_octet (octet_str : str) : option N :=
  if negb (nonempty octet_str) then None
  else if negb (forallb is_digit octet_str) then None
  else if (3 <? Datatypes.length octet_str)%nat then None
  else if negb (str_eqb octet_str (py "0")) && startswith octet_str (py "0") then None
  else
    let octet_int := fold_left (fun acc c => 10 * acc + (c - 48)) octet_str 0 in
    if 255 <? octet_int then None else Some octet_int.

Definition dotted (a b c d : N) : N := ((a * 256 + b) * 256 + c) * 256 + d.

(** [IPv4Address(s)]: the address as an integer, [None] for
    [AddressValueError]. *)
Definition IPv4Address (s : str) : option N :=
  match map _parse_octet (split 46 s) with
  | [Some a; Some b; Some c; Some d] => Some (dotted a b c d)
  | _ => None
  end.

(** The networks of [IPv4Address.is_private] and those it excepts: the
    address of each and the length of its prefix. *)
Definition _private_networks : list (N * N) :=
  [ (dotted 0 0 0 0, 8); (dotted 10 0 0 0, 8); (dotted 127 0 0 0, 8);
    (dotted 169 254 0 0, 16); (dotted 172 16 0 0, 12); (dotted 192 0 0 0, 24);
    (dotted 192 0 0 170, 31); (dotted 192 0 2 0, 24); (dotted 192 168 0 0, 16);
    (dotted 198 18 0 0, 15); (dotted 198 51 100 0, 24); (dotted 203 0 113 0, 24);
    (dotted 240 0 0 0, 4); (dotted 255 255 255 255, 32) ].

Definition _private_networks_exceptions : list (N * N) :=
  [ (dotted 192 0 0 9, 32); (dotted 192 0 0 10, 32) ].

Definition in_network (a : N) (net : N * N) : bool :=
  let '(base, prefix) := net in
  N.shiftr a (32 - prefix) =? N.shiftr base (32 - prefix).

Definition ipv4_is_private (a : N) : bool :=
  existsb (in_network a) _private_networks
  && forallb (fun net => negb (in_network a net)) _private_networks_exceptions.

(** What answers from outside the program: [IPv6Address(s).is_private]
    ([None] for [AddressValueError]), whether [HTTPConnection(netloc)] and
    [HTTPSConnection(netloc)] accept the netloc (they raise
    [http.client.InvalidURL] for a port that [int] does not read and for a
    control character in the host), and the response a server gives to one
    GET request, by scheme, netloc and path with query. *)
Record Response : Type := {
  status : N;
  Location : option str;
  Content_Type : option str;
  document : result str
}.

Record Network : Type := {
  ipv6_is_private : str -> option bool;
  http_accepts : str -> bool;
  http_get : str -> str -> str -> result Response
}.

(** [http.client.HTTPConnection(netloc)], and [HTTPSConnection(netloc)]
    alike: the connection is opened at the first request only. *)
Definition HTTPConnection (W : Network) (netloc : str) : result unit :=
  if http_accepts W netloc then Ok tt else Raise HTTPInvalidURL.

(** [ipaddress.ip_address(s).is_private]. *)
Definition ip_address_is_private (W : Network) (s : str) : result bool :=
  match IPv4Address s with
  | Some a => Ok (ipv4_is_private a)
  | None =>
      match ipv6_is_private W s with
      | Some b => Ok b
      | None => Raise ValueError
      end
  end.

End Py.

(** ** Compiled regular expressions *)

Module Re.

(** A [re.Pattern], by what the code asks of it: [pattern.match(s)] seen as
    a condition, [pattern.sub(repl, s)], and [pattern.match(s).group(1)]
    ([None] when there is no match). *)
Record Pattern : Type := {
  matches : str -> bool;
  sub : str -> str -> str;
  group1 : str -> option str
}.

End Re.

(** ** [unalix/_utils.py] *)

Module Unalix.
Import Py Re.

(** One compiled provider: an element of [patterns], the list that
    [compile_patterns] builds from the rule files. *)
Record Provider : Type := {
  pattern : Pattern;
  complete : bool;
  redirection : bool;
  exceptions : list Pattern;
  redirections : list Pattern;
  rules : list Pattern;
  referrals : list Pattern;
  raws : list Pattern
}.

(** One compiled rule of [redirects]. *)
Record RedirectRule : Type := {
  rr_pattern : Pattern;
  rr_redirects : list Pattern
}.

(** The module's globals that come from [unalix/_config.py],
    [unalix/_regex.py] and the rule files, compiled. *)
Record Config : Type := {
  local_domains : list str;
  redirect_codes : list N;
  patterns : list Provider;
  replacements : list (Pattern * str);
  redirects : list RedirectRule;
  mime : Pattern
}.

(** Modelled from the spec: [allowed_schemes] of [unalix/_config.py], which
    the specification gives as the set of [http] and [https] (and the message
    of [InvalidScheme] in [parse_url] names the same two). *)
Definition allowed_schemes : list str := [py "http"; py "https"].

(** The keyword arguments of [parse_rules]. *)
Record Options : Type := {
  allow_referral : bool;
  ignore_rules : bool;
  ignore_exceptions : bool;
  ignore_raw : bool;
  ignore_redirections : bool;
  skip_blocked : bool;
  skip_local : bool
}.

Definition default_options : Options :=
  {| allow_referral := false; ignore_rules := false; ignore_exceptions := false;
     ignore_raw := false; ignore_redirections := false; skip_blocked := false;
     skip_local := false |}.

Definition UNRESERVED_SET : str :=
  py "ABCDEFGHIJKLMNOPQRSTUVWXYZabcdefghijklmnopqrstuvwxyz0123456789-._~".

(** A [for] loop whose body may raise. *)
Fixpoint for_each {A S : Type} (body : A -> S -> result S) (l : list A) (s : S)
  : result S :=
  match l with
  | [] => Ok s
  | a :: t => s' <- body a s ;; for_each body t s'
  end.

Section WithEnvironment.
Context (U : Unicode) (W : Network) (C : Config).

(** The body of the loop of [unquote_unreserved], at one of [parts[1:]]. *)
Definition unquote_part (part : str) : result str :=
  let h := firstn 2 part in
  if (Datatypes.length h =? 2)%nat && isalnum U h then
    n <- int16 U h ;;
    c <- chr n ;;
    if contains c UNRESERVED_SET then Ok (c :: skipn 2 part)
    else Ok (PERCENT :: part)
  else Ok (PERCENT :: part).

Definition unquote_unreserved (uri : str) : result str :=
  match split PERCENT uri with
  | first :: rest => parts <- mapM unquote_part rest ;; Ok (join (first :: parts))
  | [] => Ok []
  end.

Definition safe_with_percent : str := py "!#$%&'()*+,/:;=?@[]~".
Definition safe_without_percent : str := py "!#$&'()*+,/:;=?@[]~".

Definition requote_uri (uri : str) : result str :=
  try_except_ValueError
    (u <- unquote_unreserved uri ;; quote u safe_with_percent)
    (quote uri safe_without_percent).

Definition prepend_scheme_if_needed (url new_scheme : str) : result str :=
  '(scheme, netloc, path, params, query, fragment) <- urlparse U url new_scheme ;;
  let '(netloc, path) := if negb (nonempty netloc) then (path, netloc) else (netloc, path) in
  Ok (urlunparse (scheme, netloc, path, params, query, fragment)).

Definition urldefragauth (url : str) : result str :=
  '(scheme, netloc, path, params, query, fragment) <- urlparse U url [] ;;
  let '(netloc, path) := if negb (nonempty netloc) then (path, netloc) else (netloc, path) in
  let netloc := rsplit1_last 64 netloc in
  Ok (urlunparse (scheme, netloc, path, params, query, [])).

Definition is_private (url : str) : Coroutine (result bool) :=
  Coro (fun _ =>
    '(_, netloc, _, _, _, _) <- urlparse U url [] ;;
    match ip_address_is_private W netloc with
    | Ok private => Ok private
    | Raise e => if is_ValueError e then Ok (str_in netloc (local_domains C))
                 else Raise e
    end).

Definition creat_connection (scheme netloc : str) : result unit :=
  if str_eqb scheme (py "http") then HTTPConnection W netloc
  else if str_eqb scheme (py "https") then HTTPConnection W netloc
  else Raise InvalidScheme.

Definition parse_url (url : object) : result str :=
  match url with
  | PyStr ((_ :: _) as url) =>
      url <- prepend_scheme_if_needed url (py "http") ;;
      url <- urldefragauth url ;;
      '(scheme, netloc, path, params, query, fragment) <- urlparse U url [] ;;
      if negb (str_in scheme allowed_schemes) then Raise InvalidScheme
      else
        netloc <- uni_idna U netloc ;;
        Ok (urlunparse (scheme, netloc, path, params, query, fragment))
  | _ => Raise InvalidURL
  end.

(** [for p in ps: url = p.sub(repl, url)]. *)
Definition sub_each (repl : str) (ps : list Pattern) (url : str) : str :=
  fold_left (fun url p => sub p repl url) ps url.

(** The body of the loop over [patterns] in [parse_rules]: the [url] after
    the provider [p], from the [url] before it. *)
Definition provider_step (o : Options) (p : Provider) (url : str) : result str :=
  if skip_blocked o && complete p then Ok url
  else
    let original_url := url in
    if matches (pattern p) url then
      let skip_provider :=
        negb (ignore_exceptions o) && existsb (fun exception => matches exception url) (exceptions p) in
      if skip_provider then Ok url
      else
        url <- (if negb (ignore_redirections o) then
                  let url := sub_each (py "\g<1>") (redirections p) url in
                  if negb (str_eqb url original_url)
                  then requote_uri (unquote url)
                  else Ok url
                else Ok url) ;;
        let url := if negb (ignore_rules o)
                   then sub_each (py "\g<1>") (rules p) url else url in
        let url := if negb (allow_referral o)
                   then sub_each (py "\g<1>") (referrals p) url else url in
        let url := if negb (ignore_raw o)
                   then sub_each [] (raws p) url else url in
        Ok url
    else Ok url.

(** [for pattern, replacement in replacements: url = pattern.sub(replacement, url)]. *)
Definition apply_replacements (url : str) : str :=
  fold_left (fun url pr => sub (fst pr) (snd pr) url) (replacements C) url.

Definition parse_rules (url : str) (o : Options) : result str :=
  if skip_local o && truth (is_private url) then Ok url
  else
    url <- for_each (provider_step o) (patterns C) url ;;
    Ok (apply_replacements url).

Definition clear_url (url : object) (kwargs : Options) : result str :=
  formated_url <- parse_url url ;;
  parse_rules formated_url kwargs.

(** [redirect.match(document).group(1)] for the first of [rs] that matches. *)
Fixpoint first_group (document : str) (rs : list Pattern) : option str :=
  match rs with
  | [] => None
  | redirect :: rest =>
      match group1 redirect document with
      | Some extracted_url => Some extracted_url
      | None => first_group document rest
      end
  end.

(** The loop of [extract_url] over [redirects]; [document] is the variable
    of that name, bound by the first rule whose pattern matches [url], which
    reads and closes the response. *)
Fixpoint extract_loop (response : Response) (url : str) (kwargs : Options)
  (rs : list RedirectRule) (document : option str) : result (option str) :=
  match rs with
  | [] => Ok None
  | redirect_rule :: rest =>
      if matches (rr_pattern redirect_rule) url then
        doc <- match document with
               | Some d => Ok d
               | None => Py.document response
               end ;;
        match first_group doc (rr_redirects redirect_rule) with
        | Some extracted_url =>
            cleaned <- parse_rules extracted_url kwargs ;; Ok (Some cleaned)
        | None => extract_loop response url kwargs rest (Some doc)
        end
      else extract_loop response url kwargs rest document
  end.

Definition extract_url (response : Response) (url : str) (kwargs : Options)
  : result (option str) :=
  extract_loop response url kwargs (redirects C) None.

(** Lines 317 to 328 of [unshort_url]: the URL that is given to
    [parse_rules] after a redirect to [location], received for the request of
    [path] (with its query) at [scheme] and [netloc]. *)
Definition redirect_url (scheme netloc path location : str) : str :=
  if startswith location (py "http://") || startswith location (py "https://")
  then location
  else if startswith location (py "/")
  then urlunparse (scheme, netloc, location, [], [], [])
  else
    let path := path_join (dirname path) location in
    urlunparse (scheme, netloc, path, [], [], []).

(** The [while True] loop of [unshort_url], run for at most [fuel] requests:
    [Ok None] when they do not suffice.  [bound] tells whether the variable
    [extracted_url] is bound. *)
Fixpoint unshort_loop (fuel : nat) (parse_documents : bool) (kwargs : Options)
  (parsed_url : ParseResult) (bound : bool) : result (option str) :=
  match fuel with
  | O => Ok None
  | S fuel =>
      let '(scheme, netloc, path, params, query, fragment) := parsed_url in
      _ <- creat_connection scheme netloc ;;
      let path := if nonempty query then path ++ py "?" ++ query else path in
      response <- http_get W scheme netloc path ;;
      if existsb (N.eqb (status response)) (redirect_codes C) then
        match Location response with
        | None => Raise AttributeError
        | Some location =>
            cleaned_url <- parse_rules (redirect_url scheme netloc path location) kwargs ;;
            parsed_url <- urlparse U cleaned_url [] ;;
            unshort_loop fuel parse_documents kwargs parsed_url bound
        end
      else if parse_documents then
        match Content_Type response with
        | None => Raise TypeError
        | Some content_type =>
            if matches (mime C) content_type then
              if bound then Ok (Some (urlunparse parsed_url))
              else
                extracted_url <- extract_url response (urlunparse parsed_url) kwargs ;;
                match extracted_url with
                | Some u =>
                    parsed_url <- urlparse U u [] ;;
                    unshort_loop fuel parse_documents kwargs parsed_url true
                | None => unshort_loop fuel parse_documents kwargs parsed_url true
                end
            else Ok (Some (urlunparse parsed_url))
        end
      else Ok (Some (urlunparse parsed_url))
  end.

Definition unshort_url (fuel : nat) (url : object) (parse_documents : bool)
  (kwargs : Options) : result (option str) :=
  formated_url <- parse_url url ;;
  cleaned_url <- parse_rules formated_url kwargs ;;
  parsed_url <- urlparse U cleaned_url [] ;;
  unshort_loop fuel parse_documents kwargs parsed_url false.

End WithEnvironment.

End Unalix.

(** ** Rule sets and servers for the examples

    The rule files, [_config.py] and the Unicode tables are not part of the
    sources, so the examples run on small instances: patterns with the
    behaviour of the named regular expressions, a rule set of one provider,
    and the server of [tests/test_url_unshort.py]. *)

Module Fixture.
Import Py Re Unalix.

(** Substitution by scanning from left to right.  [m s] tells whether the
    pattern matches at the start of [s]: group 1 and the length of the match,
    which is not 0.  [skip] counts the characters of a match still to pass. *)
Fixpoint scan (m : str -> option (str * nat)) (repl : str -> str) (skip : nat)
  (s : str) : str :=
  match s with
  | [] => []
  | c :: t =>
      match skip with
      | S k => scan m repl k t
      | O =>
          match m s with
          | Some (g1, n) => repl g1 ++ scan m repl (pred n) t
          | None => c :: scan m repl O t
          end
      end
  end.

(** The text a template stands for: literal text, with group 1 for each
    [\g<1>] (the templates of the examples have no other escape). *)
Definition expand (template g1 : str) : str :=
  scan (fun s => if startswith s (py "\g<1>") then Some ([], 5%nat) else None)
       (fun _ => g1) O template.

(** [re.compile(lit)] for [lit] of ordinary characters, not empty. *)
Definition literal (lit : str) : Pattern :=
  let m := fun s => if startswith s lit then Some ([], Datatypes.length lit) else None in
  {| matches := fun s => startswith s lit;
     sub := fun repl s => scan m (expand repl) O s;
     group1 := fun _ => None |}.

Definition separators : list str :=
  [py "%26"; py "%23"; py "%3F"; py "%3f"; py "&"; py "#"; py "?"].

Definition first_prefix (s : str) (l : list str) : option str :=
  List.find (fun p => startswith s p) l.

(** A match, at the start of [s], of the expression that [compile_patterns]
    builds around [name] (of ordinary characters): one separator, which is
    group 1, then [name], then [=] or [%3D] or [%3d], then the characters
    up to the next [&]. *)
Definition match_field (name s : str) : option (str * nat) :=
  match first_prefix s separators with
  | Some sep =>
      let r1 := skipn (Datatypes.length sep) s in
      if startswith r1 name then
        let r2 := skipn (Datatypes.length name) r1 in
        match first_prefix r2 [py "="; py "%3D"; py "%3d"] with
        | Some eq =>
            let value := fst (break_at (N.eqb 38) (skipn (Datatypes.length eq) r2)) in
            Some (sep, (Datatypes.length sep + Datatypes.length name
                        + Datatypes.length eq + Datatypes.length value)%nat)
        | None => None
        end
      else None
  | None => None
  end.

(** What [compile_patterns] makes of the entry [name] of "rules" or of
    "referralMarketing". *)
Definition field_rule (name : str) : Pattern :=
  {| matches := fun s => match match_field name s with Some _ => true | None => false end;
     sub := fun repl s => scan (match_field name) (expand repl) O s;
     group1 := fun s => option_map fst (match_field name s) |}.

(** What [compile_patterns] makes of an entry of "redirections" that asks
    for [prefix] (of ordinary characters) at the start of the text and takes
    as group 1 the characters after it up to the next [&]: that expression,
    followed by one that takes the rest of the line. *)
Definition unwrap (prefix : str) : Pattern :=
  let g := fun s => fst (break_at (N.eqb 38) (skipn (Datatypes.length prefix) s)) in
  {| matches := fun s => startswith s prefix;
     sub := fun repl s =>
       if startswith s prefix
       then expand repl (g s)
              ++ snd (break_at (N.eqb 10)
                        (skipn (Datatypes.length prefix + Datatypes.length (g s)) s))
       else s;
     group1 := fun s => if startswith s prefix then Some (g s) else None |}.

(** A Unicode database without a character beyond ASCII: what the library
    answers on ASCII text does not depend on it.  It knows no IPv6 address
    either: no URL of the examples has a host in brackets. *)
Definition ascii_only : Unicode :=
  {| uni_isalnum := fun _ => false;
     uni_decimal := fun _ => None;
     uni_nfkc := fun s => s;
     uni_idna := fun s => Ok s;
     bracketed_netloc := fun _ => false |}.

(** A provider for every URL of http or https, in the manner of the
    "globalRules" of the rule files. *)
Definition global_rules : Provider :=
  {| pattern := literal (py "http");
     complete := false;
     redirection := false;
     exceptions := [literal (py "http://keep.example/")];
     redirections := [unwrap (py "http://out.example/?u=")];
     rules := [field_rule (py "utm_source")];
     referrals := [field_rule (py "ref")];
     raws := [literal (py "/ref=1")] |}.

Definition config : Config :=
  {| local_domains := [py "localhost"];
     redirect_codes := [301; 302; 303; 307; 308];
     patterns := [global_rules];
     replacements := [(literal (py "&&"), py "&")];
     redirects := [];
     mime := literal (py "text/") |}.

(** A rule set whose only rule deletes [ab]. *)
Definition config_ab : Config :=
  {| local_domains := [];
     redirect_codes := [];
     patterns := [ {| pattern := literal (py "http");
                      complete := false; redirection := false;
                      exceptions := []; redirections := []; rules := [];
                      referrals := []; raws := [literal (py "ab")] |} ];
     replacements := [(literal (py "&&"), py "&")];
     redirects := [];
     mime := literal (py "text/") |}.

Definition hostname : str := py "127.2.0.1".
Definition port : str := py "56885".
Definition base_url : str := py "http://" ++ hostname ++ py ":" ++ port.

Definition response (code : N) (location : option str) : Response :=
  {| status := code; Location := location; Content_Type := None;
     document := Ok [] |}.

(** [Server.do_GET] of [tests/test_url_unshort.py], by [self.path].  A path
    of no branch sends no status line, the connection ends and the client
    raises. *)
Definition do_GET (path : str) : result Response :=
  if str_eqb path (py "/ok") then Ok (response 200 None)
  else if str_eqb path (py "/redirect-to-tracking") then
    Ok (response 301 (Some (base_url ++ py "/ok?utm_source=127.0.0.1")))
  else if str_eqb path (py "/absolute-redirect") then
    Ok (response 301 (Some (base_url ++ py "/redirect-to-tracking")))
  else if str_eqb path (py "/relative-redirect") then
    Ok (response 301 (Some (py "ok")))
  else if str_eqb path (py "/root-redirect") then
    Ok (response 301 (Some (py "/redirect-to-tracking")))
  else if str_eqb path (py "/i-dont-know-its-name-redirect") then
    Ok (response 301 (Some (py "//" ++ hostname ++ py ":" ++ port ++ py "/redirect-to-tracking")))
  else Raise OSError.

(** A netloc of a host without control characters and, after the last
    colon, no port or a port of ASCII digits. *)
Definition host_and_port (netloc : str) : bool :=
  forallb (fun c => (32 <? c) && negb (c =? 127)) netloc
  && (negb (contains 58 netloc) || forallb is_digit (rsplit1_last 58 netloc)).

(** The network of the test: one server, at [hostname] and [port].  No
    netloc of the examples has the two colons of an IPv6 address. *)
Definition test_network : Network :=
  {| ipv6_is_private := fun _ => None;
     http_accepts := host_and_port;
     http_get := fun scheme netloc path =>
       if str_eqb scheme (py "http") && str_eqb netloc (hostname ++ py ":" ++ port)
       then do_GET path else Raise OSError |}.

(** A server that answers every request with a redirect to [/loop]. *)
Definition loop_network : Network :=
  {| ipv6_is_private := fun _ => None;
     http_accepts := host_and_port;
     http_get := fun scheme netloc path => Ok (response 301 (Some (py "/loop"))) |}.

(** A rule set with rules for the body of a response. *)
Definition config_body : Config :=
  {| local_domains := [];
     redirect_codes := [301; 302; 303; 307; 308];
     patterns := [global_rules];
     replacements := [(literal (py "&&"), py "&")];
     redirects := [ {| rr_pattern := literal (py "http://a.example/");
                       rr_redirects := [field_rule (py "x")] |};
                    {| rr_pattern := literal (py "http://b.example/");
                       rr_redirects := [field_rule (py "y"); unwrap (py "go:")] |};
                    {| rr_pattern := literal (py "http://b.example/");
                       rr_redirects := [unwrap (py "g")] |} ];
     mime := literal (py "text/") |}.

(** A response with a body. *)
Definition page (body : str) : Response :=
  {| status := 200; Location := None; Content_Type := Some (py "text/html");
     document := Ok body |}.

(** A provider that is flagged complete. *)
Definition blocked_provider : Provider :=
  {| pattern := literal (py "http");
     complete := true;
     redirection := false;
     exceptions := []; redirections := []; rules := []; referrals := [];
     raws := [literal (py "/a")] |}.

End Fixture.

(** ** What the statements speak of *)

Module Terms.
Import Py Re Unalix.

(** What [provider_step] does after the redirections: the substitutions of
    "rules", of "referrals" and of "raws", each under its option. *)
Definition fields_phase (o : Options) (p : Provider) (url : str) : str :=
  let url := if negb (ignore_rules o)
             then sub_each (py "\g<1>") (rules p) url else url in
  let url := if negb (allow_referral o)
             then sub_each (py "\g<1>") (referrals p) url else url in
  if negb (ignore_raw o) then sub_each [] (raws p) url else url.

(** A pass over [c] under the options [o] applies the provider [p]: the
    provider is not skipped as blocked, its urlPattern matches [c] and no
    exception that is in force does. *)
Definition applies (o : Options) (p : Provider) (c : str) : bool :=
  negb (skip_blocked o && complete p)
  && matches (pattern p) c
  && negb (negb (ignore_exceptions o)
           && existsb (fun exception => matches exception c) (exceptions p)).

(** What a pass over [c] under [o] carries out for the provider [p] leaves
    [c] as it is: the redirections, unless they are ignored, and the rules,
    referrals and raw rules that [o] lets through. *)
Definition keeps (o : Options) (p : Provider) (c : str) : Prop :=
  (ignore_redirections o = false -> sub_each (py "\g<1>") (redirections p) c = c)
  /\ fields_phase o p c = c.

(** A pass over [c] has nothing to change: every provider that it applies
    keeps [c], and so do the global replacements.  A provider that the pass
    does not apply puts no condition on [c]. *)
Definition settled (C : Config) (o : Options) (c : str) : Prop :=
  Forall (fun p => applies o p c = true -> keeps o p c) (patterns C)
  /\ apply_replacements C c = c.

(** Every option that skips a part of [parse_rules] set, with [skip_local]
    as given. *)
Definition all_skipping (local : bool) : Options :=
  {| allow_referral := true; ignore_rules := true; ignore_exceptions := true;
     ignore_raw := true; ignore_redirections := true; skip_blocked := true;
     skip_local := local |}.

(** The default options, with [skip_local] set. *)
Definition only_skip_local : Options :=
  {| allow_referral := false; ignore_rules := false; ignore_exceptions := false;
     ignore_raw := false; ignore_redirections := false; skip_blocked := false;
     skip_local := true |}.

(** A scheme as [urlsplit] returns it when it finds one: an ASCII letter
    and then characters of [scheme_chars], none in upper case. *)
Definition valid_scheme (s : str) : Prop :=
  starts_with_letter s = true
  /\ forallb (fun c => contains c scheme_chars) s = true /\ lower s = s.

(** A [str] of code points, none above [0x10FFFF]. *)
Definition well_formed (s : str) : Prop := Forall (fun c => c <= 0x10FFFF) s.

(** A [str] that encodes to UTF-8. *)
Definition encodable (s : str) : Prop := Forall (fun c => is_surrogate c = false) s.

(** The characters that [requote_uri] leaves in a URL: the unreserved ones,
    the reserved ones, and the percent sign. *)
Definition legal_char (c : codepoint) : bool :=
  contains c ALWAYS_SAFE || contains c safe_with_percent.

(** The rule set [C] with the providers [ps] for its own. *)
Definition with_patterns (C : Config) (ps : list Provider) : Config :=
  {| local_domains := local_domains C; redirect_codes := redirect_codes C;
     patterns := ps; replacements := replacements C; redirects := redirects C;
     mime := mime C |}.

(** The default options, with [skip_blocked] set. *)
Definition only_skip_blocked : Options :=
  {| allow_referral := false; ignore_rules := false; ignore_exceptions := false;
     ignore_raw := false; ignore_redirections := false; skip_blocked := true;
     skip_local := false |}.

(** The rule [r] gives no URL for [url] and the document [d]: its pattern
    does not match [url], or none of its expressions matches [d]. *)
Definition rule_fails (url d : str) (r : RedirectRule) : Prop :=
  matches (rr_pattern r) url = true -> first_group d (rr_redirects r) = None.

(** [s] has no [c]. *)
Definition without (c : codepoint) (s : str) : Prop := Forall (fun x => x <> c) s.

(** The URL and the default scheme as [urlsplit] reads them: without the
    control characters and spaces in front (for the scheme, at the end
    too), and without tabs and line ends. *)
Definition url_text (url : str) : str :=
  remove_unsafe (lstrip_chars c0_control_or_space url).

Definition scheme_text (scheme : str) : str :=
  remove_unsafe (strip_chars c0_control_or_space scheme).

(** A [str] without control characters and spaces. *)
Definition printable (s : str) : Prop := Forall (fun c => 32 < c) s.

End Terms.

(** ** The rule engine *)

Import Py Re Unalix Terms.


Lemma str_eqb_eq (a b : str) : str_eqb a b = true <-> a = b.
Proof.
  unfold str_eqb. destruct (list_eq_dec N.eq_dec a b); split; congruence.
Qed.


Lemma contains_in (c : codepoint) (s : str) : contains c s = true <-> In c s.
Proof.
  unfold contains. rewrite existsb_exists. split.
  - intros (x & Hx & E). apply N.eqb_eq in E. subst. exact Hx.
  - intros H. exists c. split; [exact H | apply N.eqb_refl].
Qed.

Section Engine.
Context (U : Unicode) (W : Network) (C : Config).

(** The body of the loop, split at the redirections. *)
Lemma provider_step_eq (o : Options) (p : Provider) (url : str) :
  provider_step U o p url =
  if skip_blocked o && complete p then Ok url
  else if negb (matches (pattern p) url) then Ok url
  else if negb (ignore_exceptions o)
          && existsb (fun e => matches e url) (exceptions p) then Ok url
  else
    v <- (if ignore_redirections o then Ok url
          else if str_eqb (sub_each (py "\g<1>") (redirections p) url) url then Ok url
          else requote_uri U (unquote (sub_each (py "\g<1>") (redirections p) url))) ;;
    Ok (fields_phase o p v).
Proof.
  unfold provider_step, fields_phase.
  destruct (skip_blocked o && complete p); [reflexivity|].
  destruct (matches (pattern p) url); [|reflexivity]. simpl negb at 1. cbv iota.
  destruct (negb (ignore_exceptions o) && existsb _ (exceptions p)); [reflexivity|].
  destruct (ignore_redirections o); simpl; [reflexivity|].
  destruct (str_eqb (sub_each (py "\g<1>") (redirections p) url) url) eqn:E.
  - apply str_eqb_eq in E. rewrite E. reflexivity.
  - reflexivity.
Qed.




Lemma parse_rules_pipeline (url : str) (o : Options) :
  skip_local o = false ->
  parse_rules U W C url o =
  (v <- for_each (provider_step U o) (patterns C) url ;; Ok (apply_replacements C v)).
Proof.
  intros H. unfold parse_rules. rewrite H. reflexivity.
Qed.


(** C3: a provider whose urlPattern matches the URL and one of whose
    exceptions matches it, exceptions not being ignored, leaves the URL as
    it was: the next provider is given the URL from before this one. *)
Theorem exception_skips_provider (o : Options) (p : Provider)
  (rest : list Provider) (url : str) :
  matches (pattern p) url = true ->
  ignore_exceptions o = false ->
  existsb (fun exception => matches exception url) (exceptions p) = true ->
  provider_step U o p url = Ok url
  /\ for_each (provider_step U o) (p :: rest) url
     = for_each (provider_step U o) rest url.
Proof.
  intros Hm Hi He.
  assert (H : provider_step U o p url = Ok url).
  { rewrite provider_step_eq, Hm, Hi, He. simpl.
    destruct (skip_blocked o && complete p); reflexivity. }
  split; [exact H|]. simpl. rewrite H. reflexivity.
Qed.

(** C5 (as amended): with [skip_local] not set, the result of
    [parse_rules] is the global replacements, applied in the order of the
    list, to the string that the loop over the providers produced; and they
    are applied to a URL that no provider matches too. *)
Theorem replacements_follow_providers (url : str) (o : Options) :
  skip_local o = false ->
  parse_rules U W C url o =
    (v <- for_each (provider_step U o) (patterns C) url ;;
     Ok (fold_left (fun url pr => sub (fst pr) (snd pr) url) (replacements C) v))
  /\ (Forall (fun p => matches (pattern p) url = false) (patterns C) ->
      parse_rules U W C url o =
        Ok (fold_left (fun url pr => sub (fst pr) (snd pr) url) (replacements C) url)).
Proof.
  intros H. split.
  - apply parse_rules_pipeline. exact H.
  - intros Hn. rewrite (parse_rules_pipeline _ _ H).
    assert (E : for_each (provider_step U o) (patterns C) url = Ok url).
    { induction Hn as [|p ps Hp _ IH]; simpl; [reflexivity|].
      rewrite provider_step_eq, Hp. simpl.
      destruct (skip_blocked o && complete p); simpl; exact IH. }
    rewrite E. reflexivity.
Qed.

(** With every skipping option set and [skip_local] not, the providers do
    nothing and the global replacements are applied. *)
Lemma all_skipping_applies_replacements (url : str) :
  parse_rules U W C url (all_skipping false) = Ok (apply_replacements C url).
Proof.
  rewrite parse_rules_pipeline by reflexivity.
  assert (E : forall ps, for_each (provider_step U (all_skipping false)) ps url = Ok url).
  { induction ps as [|p ps IH]; simpl; [reflexivity|].
    rewrite provider_step_eq. simpl.
    destruct (complete p); simpl; [exact IH|].
    destruct (matches (pattern p) url); simpl; exact IH. }
  rewrite E. reflexivity.
Qed.

(** C7: [clear_url] raises [InvalidURL] for the empty string and for
    [None], whatever the rule set and the options. *)
Theorem clear_url_rejects_empty_and_None (kwargs : Options) :
  clear_url U W C (PyStr []) kwargs = Raise InvalidURL
  /\ clear_url U W C PyNone kwargs = Raise InvalidURL
  /\ parse_url U (PyStr []) = Raise InvalidURL
  /\ parse_url U PyNone = Raise InvalidURL.
Proof.
  repeat split; reflexivity.
Qed.

End Engine.

(** *** The engine on the example rule set *)

Import Fixture.



(** A string in which a rule still finds its field is settled all the same
    when the provider of the rule is not applied to it: an exception matches
    [http://keep.example/?utm_source=google], and the urlPattern does not
    match [ftp://g.co/?utm_source=google]; [parse_rules] returns each as it
    is.  What the raw rule left of [http://x/aabb] is not settled. *)
Lemma settled_examples :
  settled config default_options (py "http://keep.example/?utm_source=google")
  /\ settled config default_options (py "ftp://g.co/?utm_source=google")
  /\ parse_rules ascii_only test_network config
       (py "http://keep.example/?utm_source=google") default_options
     = Ok (py "http://keep.example/?utm_source=google")
  /\ parse_rules ascii_only test_network config
       (py "ftp://g.co/?utm_source=google") default_options
     = Ok (py "ftp://g.co/?utm_source=google")
  /\ ~ settled config_ab default_options (py "http://x/ab").
Proof.
  repeat split; try (vm_compute; reflexivity).
  - apply Forall_cons; [|apply Forall_nil]. intros H. vm_compute in H. discriminate.
  - apply Forall_cons; [|apply Forall_nil]. intros H. vm_compute in H. discriminate.
  - intros [H _]. inversion H as [|? ? Hp _]; subst.
    destruct (Hp ltac:(vm_compute; reflexivity)) as [_ Hf].
    vm_compute in Hf. discriminate.
Qed.

(** C2, at a URL whose host is neither a private address nor a local domain:
    [is_private], awaited, answers [False], the pipeline of [parse_rules]
    removes [utm_source], and yet with [skip_local] the URL is returned as it
    came. *)
Lemma skip_local_returns_a_public_url :
  await (is_private ascii_only test_network config (py "http://g.co/?utm_source=google"))
    = Ok false
  /\ parse_rules ascii_only test_network config (py "http://g.co/?utm_source=google")
       only_skip_local
     = Ok (py "http://g.co/?utm_source=google")
  /\ parse_rules ascii_only test_network config (py "http://g.co/?utm_source=google")
       default_options
     = Ok (py "http://g.co/?").
Proof.
  repeat split; vm_compute; reflexivity.
Qed.

Lemma exception_skips_provider_witness :
  provider_step ascii_only default_options global_rules
    (py "http://keep.example/?utm_source=google")
    = Ok (py "http://keep.example/?utm_source=google")
  /\ for_each (provider_step ascii_only default_options) [global_rules]
       (py "http://keep.example/?utm_source=google")
     = for_each (provider_step ascii_only default_options) []
         (py "http://keep.example/?utm_source=google").
Proof.
  apply (exception_skips_provider ascii_only default_options global_rules []
           (py "http://keep.example/?utm_source=google"));
    vm_compute; reflexivity.
Defined.

(** C5 (as stated) fails: the host of [http://localhost/a&&b] is a local
    domain, and with [skip_local] the URL is returned as it came, the
    replacement of [&&] by [&] not applied. *)
Lemma skip_local_applies_no_replacement :
  await (is_private ascii_only test_network config (py "http://localhost/a&&b")) = Ok true
  /\ parse_rules ascii_only test_network config (py "http://localhost/a&&b") only_skip_local
     = Ok (py "http://localhost/a&&b")
  /\ parse_rules ascii_only test_network config (py "http://localhost/a&&b") default_options
     = Ok (py "http://localhost/a&b").
Proof.
  repeat split; vm_compute; reflexivity.
Qed.

Lemma replacements_follow_providers_witness :
  parse_rules ascii_only test_network config (py "http://g.co/?a&&b&utm_source=1")
    default_options
  = Ok (py "http://g.co/?a&b&").
Proof.
  rewrite (proj1 (replacements_follow_providers ascii_only test_network config
                    (py "http://g.co/?a&&b&utm_source=1") default_options eq_refl)).
  vm_compute. reflexivity.
Defined.

(** C9, at a URL whose host is neither a private address nor a local
    domain, every skipping option set: without [skip_local] the replacement
    of [&&] by [&] is applied, with it the URL is returned as it came. *)
Lemma skip_local_disables_replacements :
  await (is_private ascii_only test_network config (py "http://g.co/a&&b")) = Ok false
  /\ parse_rules ascii_only test_network config (py "http://g.co/a&&b") (all_skipping true)
     = Ok (py "http://g.co/a&&b")
  /\ parse_rules ascii_only test_network config (py "http://g.co/a&&b") (all_skipping false)
     = Ok (py "http://g.co/a&b").
Proof.
  repeat split; vm_compute; reflexivity.
Qed.

(** ** Quoting *)

Lemma mapM_raise {A B : Type} (f : A -> result B) (P : exn -> Prop) :
  (forall a e, f a = Raise e -> P e) ->
  forall l e, mapM f l = Raise e -> P e.
Proof.
  intros Hf. induction l as [|a l IH]; simpl; intros e H.
  - discriminate.
  - destruct (f a) eqn:Ea; simpl in H.
    + destruct (mapM f l) eqn:El; simpl in H; [discriminate|].
      injection H as <-. apply (IH e0). reflexivity.
    + injection H as <-. apply (Hf a). exact Ea.
Qed.

Lemma mapM_ok {A B : Type} (f : A -> result B) (l : list A) :
  Forall (fun a => exists b, f a = Ok b) l -> exists bs, mapM f l = Ok bs.
Proof.
  induction 1 as [|a l [b Hb] _ [bs IH]]; simpl.
  - eexists. reflexivity.
  - rewrite Hb, IH. simpl. eexists. reflexivity.
Qed.

Lemma utf8_encode_char_ok (c : codepoint) :
  is_surrogate c = false -> exists bs, utf8_encode_char c = Ok bs.
Proof.
  intros H. unfold utf8_encode_char. rewrite H.
  destruct (c <? 128); [eexists; reflexivity|].
  destruct (c <? 2048); [eexists; reflexivity|].
  destruct (c <? 65536); eexists; reflexivity.
Qed.

Lemma utf8_encode_char_raise (c : codepoint) (e : exn) :
  utf8_encode_char c = Raise e -> e = UnicodeError.
Proof.
  unfold utf8_encode_char.
  destruct (c <? 128); [discriminate|].
  destruct (c <? 2048); [discriminate|].
  destruct (is_surrogate c); [congruence|].
  destruct (c <? 65536); discriminate.
Qed.

Lemma quote_ok (s safe : str) : encodable s -> exists r, quote s safe = Ok r.
Proof.
  intros H. unfold quote, utf8_encode.
  destruct (mapM_ok utf8_encode_char s) as [bs Hbs].
  - eapply Forall_impl; [|exact H]. apply utf8_encode_char_ok.
  - rewrite Hbs. simpl. eexists. reflexivity.
Qed.

Lemma quote_raise (s safe : str) (e : exn) : quote s safe = Raise e -> e = UnicodeError.
Proof.
  unfold quote, utf8_encode. intros H.
  destruct (mapM utf8_encode_char s) eqn:E; simpl in H; [discriminate|].
  injection H as <-.
  apply (mapM_raise utf8_encode_char (fun e => e = UnicodeError) utf8_encode_char_raise s e0 E).
Qed.

Section Quoting.
Context (U : Unicode).

Lemma unquote_part_raise (part : str) (e : exn) :
  unquote_part U part = Raise e -> e = ValueError.
Proof.
  unfold unquote_part.
  destruct ((Datatypes.length (firstn 2 part) =? 2)%nat && isalnum U (firstn 2 part));
    [|discriminate].
  unfold int16.
  destruct (firstn 2 part) as [|a [|b [|x l]]]; cbn [bind];
    try (intros H; congruence).
  destruct (hex_value U a), (hex_value U b); cbn [bind];
    try (intros H; congruence).
  unfold chr. destruct (_ <=? _); cbn [bind]; [|intros H; congruence].
  destruct (contains _ UNRESERVED_SET); discriminate.
Qed.

Lemma unquote_unreserved_raise (uri : str) (e : exn) :
  unquote_unreserved U uri = Raise e -> e = ValueError.
Proof.
  unfold unquote_unreserved. destruct (split PERCENT uri) as [|first rest]; [discriminate|].
  destruct (mapM (unquote_part U) rest) eqn:E; simpl; [discriminate|].
  intros H. injection H as <-.
  apply (mapM_raise (unquote_part U) (fun e => e = ValueError) unquote_part_raise rest e0 E).
Qed.

(** When the unquoting pass raises [ValueError], [requote_uri] quotes its
    argument with the percent sign among the characters to quote. *)
Lemma requote_uri_fallback (uri : str) :
  unquote_unreserved U uri = Raise ValueError ->
  requote_uri U uri = quote uri safe_without_percent.
Proof.
  intros H. unfold requote_uri. rewrite H. reflexivity.
Qed.

(** C10 (as amended): [requote_uri] returns a string for every string that
    has no surrogate code point, a percent sign that no two hexadecimal
    digits follow included; and when the unquoting pass raises, what it
    returns is the argument quoted with the percent sign among the
    characters to quote. *)
Theorem requote_uri_total (uri : str) :
  encodable uri ->
  (exists r, requote_uri U uri = Ok r)
  /\ (forall e, unquote_unreserved U uri = Raise e ->
      requote_uri U uri = quote uri safe_without_percent).
Proof.
  intros H. split.
  - unfold requote_uri, try_except_ValueError.
    destruct (unquote_unreserved U uri) as [u|e] eqn:Eu; simpl.
    + destruct (quote u safe_with_percent) as [r|e] eqn:Eq.
      * eexists. reflexivity.
      * apply quote_raise in Eq. subst e. simpl. apply quote_ok. exact H.
    + apply unquote_unreserved_raise in Eu. subst e. simpl. apply quote_ok. exact H.
  - intros e He. apply requote_uri_fallback.
    rewrite He. f_equal. apply (unquote_unreserved_raise uri e He).
Qed.

End Quoting.

(** C10 (as stated) fails: a string of one lone surrogate is quoted in the
    [try] block, where [UnicodeEncodeError] is caught as a [ValueError], and
    again in the handler, where it is not. *)
Lemma requote_uri_raises_on_surrogate :
  requote_uri ascii_only [0xD800] = Raise UnicodeError.
Proof.
  vm_compute. reflexivity.
Qed.

Lemma requote_uri_total_witness :
  (exists r, requote_uri ascii_only (py "100% of %zz and %7E") = Ok r)
  /\ (forall e, unquote_unreserved ascii_only (py "100% of %zz and %7E") = Raise e ->
      requote_uri ascii_only (py "100% of %zz and %7E")
      = quote (py "100% of %zz and %7E") safe_without_percent).
Proof.
  apply (requote_uri_total ascii_only (py "100% of %zz and %7E")).
  unfold encodable. repeat constructor.
Defined.

(** [requote_uri] on a percent sign at the end, on one before two letters
    that are no hexadecimal digits, and on escapes of an unreserved and of a
    reserved character. *)
Lemma requote_uri_examples :
  requote_uri ascii_only (py "100%") = Ok (py "100%")
  /\ requote_uri ascii_only (py "a b%zz") = Ok (py "a%20b%25zz")
  /\ requote_uri ascii_only (py "%7e%2f %41") = Ok (py "~%2f%20A").
Proof.
  repeat split; vm_compute; reflexivity.
Qed.

(** ** What [requote_uri] returns *)

Lemma below_16 (n : N) : n < 16 -> In n (map N.of_nat (seq 0 16)).
Proof.
  intros H. apply in_map_iff. exists (N.to_nat n). split.
  - apply N2Nat.id.
  - apply in_seq. lia.
Qed.

Lemma hex_upper_legal (n : N) : n < 16 -> legal_char (hex_upper n) = true.
Proof.
  intros H. apply below_16 in H.
  assert (A : forallb (fun n => legal_char (hex_upper n)) (map N.of_nat (seq 0 16)) = true)
    by (vm_compute; reflexivity).
  rewrite forallb_forall in A. apply A. exact H.
Qed.

Lemma utf8_encode_char_bytes (c : codepoint) (bs : list N) :
  c <= 0x10FFFF -> utf8_encode_char c = Ok bs -> Forall (fun b => b < 256) bs.
Proof.
  intros Hc. unfold utf8_encode_char.
  assert (c / 64 < 32 \/ 2048 <= c) by
    (destruct (N.lt_ge_cases c 2048);
     [left; apply N.Div0.div_lt_upper_bound; lia | right; assumption]).
  assert (c / 4096 < 16 \/ 65536 <= c) by
    (destruct (N.lt_ge_cases c 65536);
     [left; apply N.Div0.div_lt_upper_bound; lia | right; assumption]).
  assert (c / 262144 < 5) by (apply N.Div0.div_lt_upper_bound; lia).
  assert ((c / 4096) mod 64 < 64) by (apply N.mod_lt; lia).
  assert ((c / 64) mod 64 < 64) by (apply N.mod_lt; lia).
  assert (c mod 64 < 64) by (apply N.mod_lt; lia).
  destruct (N.ltb_spec c 128); [|destruct (N.ltb_spec c 2048);
    [|destruct (is_surrogate c); [discriminate|destruct (N.ltb_spec c 65536)]]];
    intros E; assert (E' := f_equal (fun r => match r with Ok x => x | Raise _ => bs end) E);
    cbv beta iota in E'; subst bs;
    repeat (apply Forall_cons; [lia|]); apply Forall_nil.
Qed.

Lemma contains_filter (f : codepoint -> bool) (c : codepoint) (s : str) :
  contains c (filter f s) = true -> contains c s = true.
Proof.
  rewrite !contains_in, filter_In. tauto.
Qed.

Lemma contains_subset (small big : str) (c : codepoint) :
  forallb (fun x => contains x big) small = true ->
  contains c small = true -> contains c big = true.
Proof.
  rewrite forallb_forall, contains_in. intros H Hc. apply H. exact Hc.
Qed.

Lemma quote_byte_legal (safe : str) (b : N) :
  forallb (fun x => contains x safe_with_percent) safe = true ->
  b < 256 -> forallb legal_char (quote_byte safe b) = true.
Proof.
  intros Hs Hb. unfold quote_byte.
  destruct (contains b ALWAYS_SAFE) eqn:Ea; cbn [orb].
  - cbn [forallb]. unfold legal_char. rewrite Ea. reflexivity.
  - destruct (contains b (filter isascii_char safe)) eqn:Ef.
    + apply contains_filter in Ef. cbn [forallb]. unfold legal_char.
      rewrite (contains_subset _ _ _ Hs Ef), orb_true_r. reflexivity.
    + unfold percent_hex. cbn [forallb].
      rewrite (hex_upper_legal (b / 16)) by (apply N.Div0.div_lt_upper_bound; lia).
      rewrite (hex_upper_legal (b mod 16)) by (apply N.mod_lt; lia).
      reflexivity.
Qed.

Lemma forallb_concat {A : Type} (f : A -> bool) (ls : list (list A)) :
  Forall (fun l => forallb f l = true) ls -> forallb f (concat ls) = true.
Proof.
  induction 1 as [|l ls Hl _ IH]; simpl; [reflexivity|].
  rewrite forallb_app, Hl, IH. reflexivity.
Qed.

Lemma mapM_Forall {A B : Type} (f : A -> result B) (P : A -> Prop) (Q : B -> Prop) :
  (forall a b, P a -> f a = Ok b -> Q b) ->
  forall l bs, Forall P l -> mapM f l = Ok bs -> Forall Q bs.
Proof.
  intros Hf. induction l as [|a l IH]; simpl; intros bs Hl H.
  - injection H as <-. constructor.
  - inversion Hl as [|? ? Ha Hl']; subst.
    destruct (f a) as [b|] eqn:Ea; simpl in H; [|discriminate].
    destruct (mapM f l) as [bs'|] eqn:El; simpl in H; [|discriminate].
    injection H as <-. constructor; [eapply Hf; eassumption | apply IH; auto].
Qed.

Lemma quote_legal (s safe r : str) :
  forallb (fun x => contains x safe_with_percent) safe = true ->
  well_formed s -> quote s safe = Ok r -> forallb legal_char r = true.
Proof.
  intros Hs Hw. unfold quote, utf8_encode.
  destruct (mapM utf8_encode_char s) as [bss|] eqn:E; simpl; [|discriminate].
  intros H. injection H as <-.
  assert (Hb : Forall (Forall (fun b => b < 256)) bss).
  { apply (mapM_Forall utf8_encode_char (fun c => c <= 0x10FFFF) _
             utf8_encode_char_bytes s bss Hw E). }
  apply forallb_concat. apply Forall_map.
  apply Forall_concat in Hb. eapply Forall_impl; [|exact Hb].
  intros b. apply quote_byte_legal. exact Hs.
Qed.

Lemma split_Forall (P : codepoint -> Prop) (sep : codepoint) (s : str) :
  Forall P s -> Forall (Forall P) (split sep s).
Proof.
  induction 1 as [|c s Hc _ IH]; simpl.
  - repeat constructor.
  - destruct (c =? sep).
    + constructor; [constructor | exact IH].
    + destruct (split sep s) as [|p ps]; [repeat constructor; exact Hc|].
      inversion IH; subst. constructor; [constructor; assumption | assumption].
Qed.

Lemma Forall_skipn_str (P : codepoint -> Prop) (n : nat) (s : str) :
  Forall P s -> Forall P (skipn n s).
Proof.
  revert s. induction n as [|n IH]; intros s H; [exact H|].
  destruct H; [constructor | apply IH; assumption].
Qed.

Section Requote.
Context (U : Unicode).

Lemma unquote_part_well_formed (part r : str) :
  well_formed part -> unquote_part U part = Ok r -> well_formed r.
Proof.
  unfold well_formed, unquote_part. intros Hp.
  assert (Hpc : Forall (fun c => c <= 0x10FFFF) (PERCENT :: part))
    by (constructor; [unfold PERCENT; lia | exact Hp]).
  destruct (_ && _).
  - destruct (int16 U (firstn 2 part)) as [n|]; cbn [bind]; [|discriminate].
    unfold chr. destruct (n <=? 1114111) eqn:En; cbn [bind]; [|discriminate].
    apply N.leb_le in En.
    destruct (contains n UNRESERVED_SET); intros H; injection H as <-.
    + constructor; [exact En | apply (Forall_skipn_str _ 2 part Hp)].
    + exact Hpc.
  - intros H. injection H as <-. exact Hpc.
Qed.

Lemma unquote_unreserved_well_formed (uri r : str) :
  well_formed uri -> unquote_unreserved U uri = Ok r -> well_formed r.
Proof.
  intros Hw. unfold unquote_unreserved.
  pose proof (split_Forall _ PERCENT uri Hw) as Hs.
  destruct (split PERCENT uri) as [|first rest]; [intros H; injection H as <-; constructor|].
  inversion Hs as [|? ? Hf Hr]; subst.
  destruct (mapM (unquote_part U) rest) as [parts|] eqn:E; cbn [bind]; [|discriminate].
  intros H. injection H as <-.
  unfold join, well_formed. cbn [concat]. apply Forall_app. split; [exact Hf|].
  apply Forall_concat.
  apply (mapM_Forall (unquote_part U) well_formed well_formed
           unquote_part_well_formed rest parts Hr E).
Qed.

(** What [requote_uri] returns has unreserved characters, reserved
    characters and percent signs only: every other character is quoted. *)
Lemma requote_uri_legal (uri r : str) :
  well_formed uri -> requote_uri U uri = Ok r -> forallb legal_char r = true.
Proof.
  intros Hw. unfold requote_uri, try_except_ValueError.
  destruct (unquote_unreserved U uri) as [u|e] eqn:Eu; cbn [bind].
  - destruct (quote u safe_with_percent) as [q|e] eqn:Eq.
    + intros H. injection H as <-.
      apply (quote_legal u safe_with_percent q); [vm_compute; reflexivity | | exact Eq].
      apply (unquote_unreserved_well_formed uri u Hw Eu).
    + destruct (is_ValueError e); [|discriminate].
      apply quote_legal; [vm_compute; reflexivity | exact Hw].
  - destruct (is_ValueError e); [|discriminate].
    apply quote_legal; [vm_compute; reflexivity | exact Hw].
Qed.

(** An escape of an unreserved character is decoded by the unquoting pass. *)
Lemma unquote_part_unreserved (a b c : codepoint) (rest : str) :
  isalnum U [a; b] = true ->
  int16 U [a; b] = Ok c ->
  contains c UNRESERVED_SET = true ->
  unquote_part U (a :: b :: rest) = Ok (c :: rest).
Proof.
  intros Ha Hi Hc. unfold unquote_part. cbn [firstn skipn Datatypes.length Nat.eqb andb].
  rewrite Ha, Hi. cbn [bind]. unfold chr.
  assert (Hn : (c <=? 1114111) = true).
  { apply contains_in in Hc. 
    assert (A : forallb (fun c => c <=? 1114111) UNRESERVED_SET = true)
      by (vm_compute; reflexivity).
    rewrite forallb_forall in A. apply A. exact Hc. }
  rewrite Hn. cbn [bind]. rewrite Hc. reflexivity.
Qed.

End Requote.

(** ** What [unquote] returns *)





(** ** Normalisation *)

Ltac break_match_in H :=
  match type of H with
  | context [match ?x with _ => _ end] =>
      lazymatch x with
      | context [match _ with _ => _ end] => fail
      | _ => destruct x eqn:?
      end
  end.

Lemma find_first (c : codepoint) (s rest : str) :
  contains c s = false -> find c (s ++ c :: rest) = Some (Datatypes.length s).
Proof.
  induction s as [|a s IH]; simpl; intros H.
  - rewrite N.eqb_refl. reflexivity.
  - apply orb_false_iff in H. destruct H as [Ha Hs].
    rewrite N.eqb_sym, Ha, (IH Hs). reflexivity.
Qed.

Lemma firstn_prefix (s rest : str) : firstn (Datatypes.length s) (s ++ rest) = s.
Proof.
  induction s as [|a s IH]; simpl; [reflexivity | rewrite IH; reflexivity].
Qed.

Lemma skipn_past (s rest : str) (c : codepoint) :
  skipn (S (Datatypes.length s)) (s ++ c :: rest) = rest.
Proof.
  induction s as [|a s IH]; [reflexivity | exact IH].
Qed.

Lemma scheme_chars_lower (c : codepoint) :
  contains c scheme_chars = true ->
  contains (lower_char c) scheme_chars = true /\ lower_char (lower_char c) = lower_char c.
Proof.
  intros H. apply contains_in in H.
  assert (A : forallb (fun c => contains (lower_char c) scheme_chars
                                && (lower_char (lower_char c) =? lower_char c))
                      scheme_chars = true) by (vm_compute; reflexivity).
  rewrite forallb_forall in A. specialize (A c H).
  apply andb_true_iff in A. destruct A as [A B]. apply N.eqb_eq in B. split; assumption.
Qed.

Lemma scheme_chars_no_colon (s : str) :
  forallb (fun c => contains c scheme_chars) s = true -> contains 58 s = false.
Proof.
  intros H. destruct (contains 58 s) eqn:E; [|reflexivity].
  apply contains_in in E. rewrite forallb_forall in H. specialize (H 58 E).
  vm_compute in H. discriminate.
Qed.

Lemma find_nonempty (c : codepoint) (s : str) (i : nat) :
  find c s = Some i -> s <> [].
Proof.
  destruct s; [discriminate | discriminate].
Qed.

(** The scheme that [split_scheme] returns is well formed when the default
    is. *)
Lemma letter_scheme_char (c : codepoint) :
  isascii_char c && (is_upper c || is_lower c) = true ->
  contains c scheme_chars = true /\ is_lower (lower_char c) = true.
Proof.
  intros H.
  assert (A : forall n : nat, (n < 128)%nat ->
            isascii_char (N.of_nat n) && (is_upper (N.of_nat n) || is_lower (N.of_nat n)) = true ->
            contains (N.of_nat n) scheme_chars && is_lower (lower_char (N.of_nat n)) = true).
  { intros n Hn. do 128 (destruct n as [|n]; [vm_compute; tauto|]). lia. }
  assert (Hc : c < 128).
  { apply andb_true_iff in H. destruct H as [H _]. apply N.ltb_lt in H. exact H. }
  specialize (A (N.to_nat c)). rewrite N2Nat.id in A.
  apply andb_true_iff. apply A; [lia | exact H].
Qed.

Lemma lower_letter (c : codepoint) :
  is_lower c = true -> isascii_char c && (is_upper c || is_lower c) = true.
Proof.
  unfold is_lower, isascii_char, is_upper. intros H.
  apply andb_true_iff in H. destruct H as [H1 H2].
  apply N.leb_le in H1. apply N.leb_le in H2.
  apply andb_true_iff. split; [apply N.ltb_lt; lia|].
  apply orb_true_iff. right. apply andb_true_iff. split; apply N.leb_le; lia.
Qed.

Lemma scheme_prefix_chars (url : str) (i : nat) :
  starts_with_letter url
  && forallb (fun c => contains c scheme_chars) (skipn 1 (firstn (S i) url)) = true ->
  forallb (fun c => contains c scheme_chars) (firstn (S i) url) = true.
Proof.
  intros H. apply andb_true_iff in H. destruct H as [Hl Hc].
  destruct url as [|a url]; [discriminate|].
  cbn [starts_with_letter] in Hl. cbn [firstn skipn] in Hc.
  cbn [firstn forallb]. rewrite (proj1 (letter_scheme_char a Hl)), Hc. reflexivity.
Qed.

Lemma split_scheme_valid (url d : str) :
  valid_scheme d -> valid_scheme (fst (split_scheme url d)).
Proof.
  intros Hd. unfold split_scheme.
  destruct (find 58 url) as [[|i]|] eqn:Ef; cbn [fst]; try exact Hd.
  destruct (starts_with_letter url
            && forallb (fun c => contains c scheme_chars) (skipn 1 (firstn (S i) url)))
    eqn:Ea; cbn [fst]; [|exact Hd].
  apply andb_true_iff in Ea. destruct Ea as [El Ea].
  destruct url as [|a url]; [discriminate|].
  cbn [starts_with_letter] in El. cbn [firstn skipn] in Ea.
  destruct (letter_scheme_char a El) as [Ha Hl].
  assert (Eall : forallb (fun c => contains c scheme_chars) (a :: firstn i url) = true).
  { cbn [forallb]. rewrite Ha, Ea. reflexivity. }
  cbn [firstn]. repeat split.
  - cbn [lower map starts_with_letter]. apply lower_letter. exact Hl.
  - unfold lower. rewrite forallb_forall in *. intros x Hx.
    apply in_map_iff in Hx. destruct Hx as (y & <- & Hy).
    apply scheme_chars_lower. apply Eall. exact Hy.
  - unfold lower. rewrite map_map. apply map_ext_in. intros b Hb.
    rewrite forallb_forall in Eall. apply scheme_chars_lower. apply Eall. exact Hb.
Qed.

(** A well formed scheme, a colon and more: [split_scheme] gives the scheme
    back. *)
Lemma split_scheme_prefix (s rest d : str) :
  valid_scheme s -> split_scheme (s ++ 58 :: rest) d = (s, rest).
Proof.
  intros (Hne & Hc & Hl). unfold split_scheme.
  rewrite (find_first 58 s rest (scheme_chars_no_colon s Hc)).
  destruct s as [|a s]; [discriminate|].
  cbn [Datatypes.length]. cbv iota.
  change (S (Datatypes.length s)) with (Datatypes.length (a :: s)).
  rewrite firstn_prefix, Hl, skipn_past.
  cbn [app starts_with_letter]. cbn [starts_with_letter] in Hne. rewrite Hne.
  cbn [forallb] in Hc. apply andb_true_iff in Hc. destruct Hc as [_ Hc].
  cbn [skipn]. rewrite Hc. reflexivity.
Qed.

Lemma valid_scheme_nonempty (s : str) : valid_scheme s -> s <> [].
Proof.
  intros (H & _) ->. discriminate.
Qed.

Lemma http_valid_scheme : valid_scheme (py "http").
Proof.
  repeat split; vm_compute; reflexivity.
Qed.

Lemma scheme_chars_safe (s : str) :
  forallb (fun c => contains c scheme_chars) s = true -> remove_unsafe s = s.
Proof.
  unfold remove_unsafe. induction s as [|a s IH]; cbn [forallb filter]; [reflexivity|].
  intros H. apply andb_true_iff in H. destruct H as [Ha Hs].
  assert (E : unsafe_url_byte a = false).
  { destruct (unsafe_url_byte a) eqn:E; [|reflexivity].
    unfold unsafe_url_byte in E. apply orb_true_iff in E.
    destruct E as [E|E]; [apply orb_true_iff in E; destruct E as [E|E]|];
      apply N.eqb_eq in E; subst a; vm_compute in Ha; discriminate. }
  rewrite E. cbn [negb]. rewrite (IH Hs). reflexivity.
Qed.

(** [urlsplit] reads a URL that begins with a scheme and a colon as that
    beginning and the rest without its tabs and line ends. *)
Lemma url_text_prefix (s rest : str) :
  valid_scheme s -> url_text (s ++ 58 :: rest) = s ++ 58 :: remove_unsafe rest.
Proof.
  intros (Hl & Hc & _). unfold url_text.
  destruct s as [|a s]; [discriminate|]. cbn [app lstrip_chars].
  assert (Ha : c0_control_or_space a = false).
  { cbn [starts_with_letter] in Hl. unfold c0_control_or_space.
    apply N.leb_gt. apply andb_true_iff in Hl. destruct Hl as [_ Hl].
    unfold is_upper, is_lower in Hl. apply orb_true_iff in Hl.
    destruct Hl as [Hl|Hl]; apply andb_true_iff in Hl; destruct Hl as [Hl _];
      apply N.leb_le in Hl; lia. }
  rewrite Ha. change (a :: s ++ 58 :: rest) with ((a :: s) ++ 58 :: rest).
  unfold remove_unsafe. rewrite filter_app.
  fold (remove_unsafe (a :: s)). rewrite (scheme_chars_safe _ Hc). reflexivity.
Qed.

Section Normalise.
Context (U : Unicode).

Lemma urlsplit_scheme (url d s n p q f : str) :
  urlsplit U url d = Ok (s, n, p, q, f) ->
  s = fst (split_scheme (url_text url) (scheme_text d)).
Proof.
  unfold urlsplit. cbv zeta. fold (url_text url). fold (scheme_text d).
  destruct (split_scheme (url_text url) (scheme_text d)) as [s0 u0]. simpl fst.
  unfold bind. intros H.
  repeat break_match_in H; try discriminate; congruence.
Qed.

Lemma urlsplit_raise (url d : str) (e : exn) :
  urlsplit U url d = Raise e -> e = ValueError.
Proof.
  unfold urlsplit. cbv zeta. fold (url_text url). fold (scheme_text d).
  destruct (split_scheme (url_text url) (scheme_text d)) as [s0 u0].
  unfold bind, _checknetloc. intros H.
  repeat break_match_in H; try discriminate; congruence.
Qed.

Lemma urlparse_scheme (url d s n p pa q f : str) :
  urlparse U url d = Ok (s, n, p, pa, q, f) ->
  s = fst (split_scheme (url_text url) (scheme_text d)).
Proof.
  unfold urlparse. destruct (urlsplit U url d) as [[[[[s0 n0] p0] q0] f0]|e] eqn:E;
    simpl; [|discriminate].
  apply urlsplit_scheme in E. intros H.
  repeat break_match_in H; congruence.
Qed.

Lemma urlparse_raise (url d : str) (e : exn) :
  urlparse U url d = Raise e -> e = ValueError.
Proof.
  unfold urlparse. destruct (urlsplit U url d) as [[[[[s0 n0] p0] q0] f0]|e0] eqn:E;
    simpl.
  - intros H. repeat break_match_in H; discriminate.
  - intros H. injection H as <-. apply (urlsplit_raise _ _ _ E).
Qed.

Lemma urlparse_prefix (s rest d : str) :
  valid_scheme s ->
  urlparse U (s ++ 58 :: rest) d = Raise ValueError
  \/ exists n p pa q f, urlparse U (s ++ 58 :: rest) d = Ok (s, n, p, pa, q, f).
Proof.
  intros Hs.
  destruct (urlparse U (s ++ 58 :: rest) d) as [[[[[[s' n] p] pa] q] f]|e] eqn:E.
  - right. apply urlparse_scheme in E.
    rewrite (url_text_prefix s rest Hs), (split_scheme_prefix s _ _ Hs) in E.
    simpl in E. subst s'. eauto 6.
  - left. apply urlparse_raise in E. subst e. reflexivity.
Qed.

Lemma urlunparse_scheme (s n p pa q f : str) :
  s <> [] -> exists rest, urlunparse (s, n, p, pa, q, f) = s ++ 58 :: rest.
Proof.
  intros Hs. destruct s as [|c s]; [contradiction|].
  unfold urlunparse, urlunsplit. cbn [nonempty]. cbv zeta.
  change (py ":") with [58].
  match goal with
  | |- context [(c :: s) ++ [58] ++ ?u] => generalize u; intros url
  end.
  destruct (nonempty q), (nonempty f); eexists; rewrite <- ?app_assoc; reflexivity.
Qed.

Lemma prepend_scheme_shape (url d s n p pa q f : str) :
  urlparse U url d = Ok (s, n, p, pa, q, f) -> s <> [] ->
  exists rest, prepend_scheme_if_needed U url d = Ok (s ++ 58 :: rest).
Proof.
  intros H Hs. unfold prepend_scheme_if_needed. rewrite H. cbn [bind].
  destruct (negb (nonempty n)); cbv beta iota zeta;
    match goal with
    | |- context [urlunparse (s, ?a, ?b, pa, q, f)] =>
        destruct (urlunparse_scheme s a b pa q f Hs) as [rest E]
    end; exists rest; f_equal; exact E.
Qed.

Lemma urldefragauth_shape (s rest : str) :
  valid_scheme s ->
  urldefragauth U (s ++ 58 :: rest) = Raise ValueError
  \/ exists rest', urldefragauth U (s ++ 58 :: rest) = Ok (s ++ 58 :: rest').
Proof.
  intros Hs. unfold urldefragauth.
  destruct (urlparse_prefix s rest [] Hs) as [-> | (n & p & pa & q & f & ->)].
  - left. reflexivity.
  - right. cbn [bind].
    destruct (negb (nonempty n)); cbv beta iota zeta;
      match goal with
      | |- context [urlunparse (s, ?a, ?b, pa, q, ?c)] =>
          destruct (urlunparse_scheme s a b pa q c (valid_scheme_nonempty s Hs))
            as [rest' E]
      end; exists rest'; f_equal; exact E.
Qed.

(** A URL whose scheme, after the default of http, is neither http nor
    https: [parse_url], and [clear_url] with it, raises [InvalidScheme] when
    the two calls of [urlparse] that follow the first accept the URL that
    was put together again, and the [ValueError] of the one that does not
    otherwise. *)
Lemma clear_url_rejects_other_schemes (W : Network) (C : Config)
  (kwargs : Options) (url scheme netloc path params query fragment : str) :
  url <> [] ->
  urlparse U url (py "http") = Ok (scheme, netloc, path, params, query, fragment) ->
  str_in scheme allowed_schemes = false ->
  exists u1, prepend_scheme_if_needed U url (py "http") = Ok u1
  /\ match urldefragauth U u1 with
     | Raise e => e = ValueError
                  /\ clear_url U W C (PyStr url) kwargs = Raise ValueError
     | Ok u2 =>
         match urlparse U u2 [] with
         | Raise e => e = ValueError
                      /\ clear_url U W C (PyStr url) kwargs = Raise ValueError
         | Ok _ => clear_url U W C (PyStr url) kwargs = Raise InvalidScheme
         end
     end.
Proof.
  intros Hne Hp Hs.
  assert (Hv : valid_scheme scheme).
  { rewrite (urlparse_scheme _ _ _ _ _ _ _ _ Hp). apply split_scheme_valid.
    exact http_valid_scheme. }
  unfold clear_url, parse_url. destruct url as [|a t]; [contradiction|].
  destruct (prepend_scheme_shape _ _ _ _ _ _ _ _ Hp (valid_scheme_nonempty _ Hv))
    as [r1 E1].
  exists (scheme ++ 58 :: r1). split; [exact E1|]. rewrite E1. cbn [bind].
  destruct (urldefragauth_shape scheme r1 Hv) as [E2 | [r2 E2]]; rewrite E2; cbn [bind].
  - split; reflexivity.
  - destruct (urlparse_prefix scheme r2 [] Hv) as [E3 | (n & p & pa & q & f & E3)];
      rewrite E3; cbn [bind].
    + split; reflexivity.
    + rewrite Hs. reflexivity.
Qed.

End Normalise.

(** C8, at [ftp:[x]: the scheme of the URL is ftp, which is neither http
    nor https, and [clear_url] raises [ValueError], not [InvalidScheme]:
    [parse_url] puts the URL together again as [ftp://[x] before it tests
    the scheme, and lets the error of the second [urlparse] through. *)
Lemma clear_url_ValueError_before_InvalidScheme :
  urlparse ascii_only (py "ftp:[x") (py "http") = Ok (py "ftp", [], py "[x", [], [], [])
  /\ str_in (py "ftp") allowed_schemes = false
  /\ clear_url ascii_only test_network config (PyStr (py "ftp:[x")) default_options
     = Raise ValueError.
Proof.
  repeat split; vm_compute; reflexivity.
Qed.

Lemma clear_url_rejects_ftp :
  clear_url ascii_only test_network config (PyStr (py "ftp://example.com")) default_options
  = Raise InvalidScheme.
Proof.
  vm_compute. reflexivity.
Qed.

(** ** Redirections inside the engine *)

(** ** Redirects *)

(** A location that begins with a slash, with two as with one, is taken as
    a path on the scheme and the netloc of the request. *)
Lemma redirect_url_slash (scheme netloc path location : str) :
  startswith location (py "/") = true ->
  nonempty scheme = true -> nonempty netloc = true ->
  redirect_url scheme netloc path location
  = scheme ++ py "://" ++ netloc ++ location.
Proof.
  intros Hl Hs Hn. unfold redirect_url.
  assert (Hh : startswith location (py "http://") || startswith location (py "https://")
               = false).
  { destruct location as [|c l]; [discriminate|].
    change (py "/") with [47] in Hl. cbn [startswith] in Hl.
    apply andb_true_iff in Hl. destruct Hl as [Hc _]. apply N.eqb_eq in Hc. subst c.
    reflexivity. }
  rewrite Hh, Hl. unfold urlunparse, urlunsplit. cbn [nonempty]. cbv zeta.
  rewrite Hn, Hs, Hl. cbn [orb andb negb].
  destruct location as [|c l]; [discriminate|]. cbn [nonempty andb].
  change (py "://") with ([58] ++ py "//"). rewrite <- !app_assoc. reflexivity.
Qed.

(** C4, on the server of the test: the redirect of
    [/i-dont-know-its-name-redirect] to a location that begins with two
    slashes is followed to a path on the same netloc, which the server does
    not know, where the test expects the URL of [/ok]; the three other
    redirects of the test end there. *)
Lemma protocol_relative_location_taken_as_path :
  redirect_url (py "http") (py "127.2.0.1:56885") (py "/i-dont-know-its-name-redirect")
    (py "//127.2.0.1:56885/redirect-to-tracking")
  = py "http://127.2.0.1:56885//127.2.0.1:56885/redirect-to-tracking"
  /\ unshort_url ascii_only test_network config 8
       (PyStr (base_url ++ py "/i-dont-know-its-name-redirect")) false default_options
     = Raise OSError
  /\ unshort_url ascii_only test_network config 8
       (PyStr (base_url ++ py "/root-redirect")) false default_options
     = Ok (Some (base_url ++ py "/ok"))
  /\ unshort_url ascii_only test_network config 8
       (PyStr (base_url ++ py "/absolute-redirect")) false default_options
     = Ok (Some (base_url ++ py "/ok"))
  /\ unshort_url ascii_only test_network config 8
       (PyStr (base_url ++ py "/relative-redirect")) false default_options
     = Ok (Some (base_url ++ py "/ok")).
Proof.
  repeat split; vm_compute; reflexivity.
Qed.

(** * Further properties of the code *)

Lemma contains_app (c : codepoint) (a b : str) :
  contains c (a ++ b) = contains c a || contains c b.
Proof.
  unfold contains. apply existsb_app.
Qed.

(** ** [requote_uri] *)

Lemma legal_char_ascii (c : codepoint) : legal_char c = true -> isascii_char c = true.
Proof.
  unfold legal_char. intros H. apply orb_true_iff in H.
  assert (A : forallb isascii_char (ALWAYS_SAFE ++ safe_with_percent) = true)
    by (vm_compute; reflexivity).
  rewrite forallb_forall in A. apply A. apply in_or_app.
  destruct H as [H | H]; apply contains_in in H; auto.
Qed.

Lemma utf8_encode_ascii (s : str) :
  forallb isascii_char s = true -> utf8_encode s = Ok s.
Proof.
  intros H. unfold utf8_encode.
  assert (E : mapM utf8_encode_char s = Ok (map (fun c => [c]) s)).
  { induction s as [|c s IH]; [reflexivity|].
    cbn [forallb] in H. apply andb_true_iff in H. destruct H as [Hc Hs].
    cbn [mapM map]. rewrite (IH Hs). unfold utf8_encode_char.
    unfold isascii_char in Hc. rewrite Hc. reflexivity. }
  rewrite E. cbn [bind]. f_equal.
  clear. induction s as [|c s IH]; [reflexivity|]. cbn [map concat app].
  rewrite IH. reflexivity.
Qed.

Lemma quote_legal_id (s : str) :
  forallb legal_char s = true -> quote s safe_with_percent = Ok s.
Proof.
  intros H. unfold quote. rewrite utf8_encode_ascii.
  - cbn [bind]. f_equal. induction s as [|c s IH]; [reflexivity|].
    cbn [forallb] in H. apply andb_true_iff in H. destruct H as [Hc Hs].
    cbn [map concat]. rewrite (IH Hs). unfold quote_byte.
    change (filter isascii_char safe_with_percent) with safe_with_percent.
    unfold legal_char in Hc. rewrite Hc. reflexivity.
  - rewrite forallb_forall in *. intros x Hx. apply legal_char_ascii. apply H. exact Hx.
Qed.

Lemma split_absent (sep : codepoint) (s : str) :
  contains sep s = false -> split sep s = [s].
Proof.
  induction s as [|c s IH]; cbn [split contains existsb]; intros H; [reflexivity|].
  apply orb_false_iff in H. destruct H as [Hc Hs].
  rewrite N.eqb_sym, Hc. unfold contains in IH. rewrite (IH Hs). reflexivity.
Qed.

Section RequoteMore.
Context (U : Unicode).

Lemma unquote_unreserved_no_percent (uri : str) :
  contains PERCENT uri = false -> unquote_unreserved U uri = Ok uri.
Proof.
  intros H. unfold unquote_unreserved. rewrite (split_absent _ _ H).
  cbn [mapM bind]. unfold join. cbn [concat]. rewrite app_nil_r. reflexivity.
Qed.

(** X1: what [requote_uri] returns for a well formed string has unreserved
    characters, reserved characters and percent signs only, all of them
    ASCII. *)
Theorem requote_uri_returns_quoted_text (uri r : str) :
  well_formed uri ->
  requote_uri U uri = Ok r ->
  forallb legal_char r = true /\ isascii r = true.
Proof.
  intros Hw Hr. pose proof (requote_uri_legal U uri r Hw Hr) as H.
  split; [exact H|]. unfold isascii. rewrite forallb_forall in *.
  intros x Hx. apply legal_char_ascii. apply H. exact Hx.
Qed.

(** X2: [requote_uri] returns its argument when that has unreserved
    characters, reserved characters and percent signs only and the unquoting
    pass finds nothing to decode in it; a string of such characters without
    a percent sign is one. *)
Theorem requote_uri_fixes_quoted_text (uri : str) :
  forallb legal_char uri = true ->
  unquote_unreserved U uri = Ok uri \/ contains PERCENT uri = false ->
  requote_uri U uri = Ok uri.
Proof.
  intros Hl H.
  assert (Hu : unquote_unreserved U uri = Ok uri).
  { destruct H as [H | H]; [exact H | apply unquote_unreserved_no_percent; exact H]. }
  unfold requote_uri. rewrite Hu. cbn [bind]. rewrite (quote_legal_id uri Hl).
  reflexivity.
Qed.

End RequoteMore.

Lemma requote_uri_returns_quoted_text_witness :
  forallb legal_char (py "a%20b%25zz") = true /\ isascii (py "a%20b%25zz") = true.
Proof.
  apply (requote_uri_returns_quoted_text ascii_only (py "a b%zz") (py "a%20b%25zz")).
  - unfold well_formed. repeat (apply Forall_cons; [vm_compute; discriminate|]).
    apply Forall_nil.
  - vm_compute. reflexivity.
Defined.

Lemma requote_uri_fixes_quoted_text_witness :
  requote_uri ascii_only (py "http://x.org/a%20b?q=%2F#f") = Ok (py "http://x.org/a%20b?q=%2F#f").
Proof.
  apply (requote_uri_fixes_quoted_text ascii_only (py "http://x.org/a%20b?q=%2F#f")).
  - vm_compute. reflexivity.
  - left. vm_compute. reflexivity.
Defined.

(** *** UTF-8, quoted and read back *)






(** Decoding reads back the bytes of one encoded character. *)















Section Escapes.
Context (U : Unicode).




(** Without a percent sign there is nothing to decode: [requote_uri] is the
    quoting pass. *)
Lemma requote_uri_quotes (s : str) :
  contains PERCENT s = false -> encodable s ->
  requote_uri U s = quote s safe_with_percent.
Proof.
  intros H He. unfold requote_uri. rewrite (unquote_unreserved_no_percent U s H).
  cbn [bind]. destruct (quote_ok s safe_with_percent He) as [r ->]. reflexivity.
Qed.

End Escapes.




(** ** [parse_rules] *)

Section EngineMore.
Context (U : Unicode) (W : Network) (C : Config).

Lemma provider_step_blocked (o : Options) (p : Provider) (url : str) :
  skip_blocked o = true -> complete p = true -> provider_step U o p url = Ok url.
Proof.
  intros Hs Hc. unfold provider_step. rewrite Hs, Hc. reflexivity.
Qed.

Lemma for_each_skip_blocked (o : Options) (ps : list Provider) (url : str) :
  skip_blocked o = true ->
  for_each (provider_step U o) ps url
  = for_each (provider_step U o) (filter (fun p => negb (complete p)) ps) url.
Proof.
  intros Hs. revert url. induction ps as [|p ps IH]; intros url; [reflexivity|].
  cbn [filter for_each]. destruct (complete p) eqn:Hc; cbn [negb].
  - rewrite (provider_step_blocked o p url Hs Hc). cbn [bind]. apply IH.
  - cbn [for_each]. destruct (provider_step U o p url); cbn [bind]; [apply IH | reflexivity].
Qed.

(** X4: with [skip_blocked], [parse_rules] returns what it returns for the
    rule set without the providers that are flagged complete. *)
Theorem skip_blocked_drops_complete_providers (o : Options) (url : str) :
  skip_blocked o = true ->
  parse_rules U W C url o
  = parse_rules U W
      (with_patterns C (filter (fun p => negb (complete p)) (patterns C))) url o.
Proof.
  intros Hs. unfold parse_rules, truth.
  destruct (skip_local o && true); [reflexivity|].
  rewrite (for_each_skip_blocked o (patterns C) url Hs). reflexivity.
Qed.

End EngineMore.

(** ** [prepend_scheme_if_needed], [urldefragauth] and [parse_url] *)

Lemma contains_none (c : codepoint) (bad s : str) :
  forallb (fun x => negb (contains x bad)) s = true ->
  contains c bad = true -> contains c s = false.
Proof.
  intros H Hc. destruct (contains c s) eqn:E; [|reflexivity].
  apply contains_in in E. rewrite forallb_forall in H. specialize (H c E).
  rewrite Hc in H. discriminate.
Qed.

Lemma find_absent (c : codepoint) (s : str) : contains c s = false -> find c s = None.
Proof.
  induction s as [|a s IH]; cbn [find contains existsb]; intros H; [reflexivity|].
  apply orb_false_iff in H. destruct H as [Ha Hs].
  rewrite N.eqb_sym, Ha. unfold contains in IH. rewrite (IH Hs). reflexivity.
Qed.

Lemma split_scheme_no_colon (url d : str) :
  contains 58 url = false -> split_scheme url d = (d, url).
Proof.
  intros H. unfold split_scheme. rewrite (find_absent 58 url H). reflexivity.
Qed.

Lemma break_at_none (stop : codepoint -> bool) (s : str) :
  forallb (fun c => negb (stop c)) s = true -> break_at stop s = (s, []).
Proof.
  induction s as [|c s IH]; cbn [break_at forallb]; intros H; [reflexivity|].
  apply andb_true_iff in H. destruct H as [Hc Hs].
  apply negb_true_iff in Hc. rewrite Hc, (IH Hs). reflexivity.
Qed.

Lemma rsplit1_last_absent (c : codepoint) (s : str) :
  contains c s = false -> rsplit1_last c s = s.
Proof.
  destruct s as [|a s]; [reflexivity|]. cbn [rsplit1_last contains existsb].
  intros H. apply orb_false_iff in H. destruct H as [Ha Hs].
  unfold contains. rewrite Hs, N.eqb_sym, Ha. reflexivity.
Qed.

Lemma startswith_prefix (p s : str) : startswith (p ++ s) p = true.
Proof.
  induction p as [|c p IH]; [destruct s; reflexivity|].
  cbn [app startswith]. rewrite N.eqb_refl, IH. reflexivity.
Qed.

Lemma startswith_absent (c : codepoint) (s p : str) :
  contains c s = false -> startswith s (c :: p) = false.
Proof.
  destruct s as [|a s]; [reflexivity|]. cbn [contains existsb startswith].
  intros H. apply orb_false_iff in H. destruct H as [Ha _]. rewrite Ha. reflexivity.
Qed.

Lemma urlunparse_scheme_host (s h : str) :
  s <> [] -> h <> [] -> urlunparse (s, h, [], [], [], []) = s ++ py "://" ++ h.
Proof.
  intros Hs Hh. unfold urlunparse, urlunsplit.
  destruct s; [contradiction|]. destruct h; [contradiction|].
  cbn [nonempty orb andb]. rewrite app_nil_r.
  change (py "://") with ([58] ++ py "//"). rewrite <- !app_assoc. reflexivity.
Qed.

Ltac each_char :=
  repeat (apply Forall_cons; [vm_compute; first [reflexivity | discriminate]|]);
  apply Forall_nil.

Lemma remove_unsafe_printable (s : str) : printable s -> remove_unsafe s = s.
Proof.
  unfold remove_unsafe. induction 1 as [|a s Ha _ IH]; cbn [filter]; [reflexivity|].
  assert (E : unsafe_url_byte a = false).
  { unfold unsafe_url_byte. apply orb_false_iff. split; [apply orb_false_iff; split|];
      apply N.eqb_neq; lia. }
  rewrite E. cbn [negb]. rewrite IH. reflexivity.
Qed.

Lemma lstrip_chars_printable (s : str) :
  printable s -> lstrip_chars c0_control_or_space s = s.
Proof.
  destruct 1 as [|a s Ha _]; cbn [lstrip_chars]; [reflexivity|].
  replace (c0_control_or_space a) with false; [reflexivity|].
  symmetry. apply N.leb_gt. exact Ha.
Qed.

Lemma url_text_printable (s : str) : printable s -> url_text s = s.
Proof.
  intros H. unfold url_text.
  rewrite (lstrip_chars_printable s H). apply remove_unsafe_printable. exact H.
Qed.

Lemma scheme_text_printable (s : str) : printable s -> scheme_text s = s.
Proof.
  intros H. unfold scheme_text, strip_chars.
  rewrite (lstrip_chars_printable s H).
  rewrite lstrip_chars_printable by (apply Forall_rev; exact H).
  rewrite rev_involutive. apply remove_unsafe_printable. exact H.
Qed.

Section NormaliseMore.
Context (U : Unicode).

(** [urlparse] takes such a text for a path, under the scheme it is given. *)
Lemma urlparse_bare (url new_scheme : str) :
  printable url -> printable new_scheme ->
  forallb (fun c => negb (contains c (py ":?#;"))) url = true ->
  startswith url (py "//") = false ->
  urlparse U url new_scheme = Ok (new_scheme, [], url, [], [], []).
Proof.
  intros Hpu Hpd Hc Hs.
  unfold urlparse, urlsplit. cbv zeta.
  fold (url_text url). fold (scheme_text new_scheme).
  rewrite (url_text_printable url Hpu), (scheme_text_printable new_scheme Hpd).
  rewrite (split_scheme_no_colon url new_scheme)
    by (apply (contains_none 58 _ _ Hc); reflexivity).
  rewrite Hs. cbn [bind].
  rewrite (contains_none 35 _ _ Hc), (contains_none 63 _ _ Hc) by reflexivity.
  cbn [_checknetloc nonempty negb orb bind].
  rewrite (contains_none 59 _ _ Hc) by reflexivity. rewrite andb_false_r.
  reflexivity.
Qed.

(** X6: a text without control characters and spaces, without a colon, a
    question mark, a hash or a semicolon, that does not begin with two
    slashes is taken as a host (and path): [prepend_scheme_if_needed] puts
    the new scheme and [://] before it. *)
Theorem prepend_scheme_to_bare_text (url new_scheme : str) :
  url <> [] -> new_scheme <> [] ->
  printable url -> printable new_scheme ->
  forallb (fun c => negb (contains c (py ":?#;"))) url = true ->
  startswith url (py "//") = false ->
  prepend_scheme_if_needed U url new_scheme = Ok (new_scheme ++ py "://" ++ url).
Proof.
  intros Hu Hd Hpu Hpd Hc Hs.
  unfold prepend_scheme_if_needed.
  rewrite (urlparse_bare url new_scheme Hpu Hpd Hc Hs).
  cbn [bind nonempty negb]. cbv beta iota.
  exact (f_equal Ok (urlunparse_scheme_host new_scheme url Hd Hu)).
Qed.

(** X7: [prepend_scheme_if_needed] does not replace a scheme that is there:
    when the text begins with a scheme (a lower-case letter, then lower-case
    letters, digits, [+], [-] and [.]) and a colon, what it returns begins
    with them, whatever the new scheme is. *)
Theorem prepend_scheme_keeps_scheme (s rest new_scheme r : str) :
  valid_scheme s ->
  prepend_scheme_if_needed U (s ++ 58 :: rest) new_scheme = Ok r ->
  exists rest', r = s ++ 58 :: rest'.
Proof.
  intros Hs Hr.
  destruct (urlparse_prefix U s rest new_scheme Hs) as [E | (n & p & pa & q & f & E)].
  - unfold prepend_scheme_if_needed in Hr. rewrite E in Hr. discriminate.
  - destruct (prepend_scheme_shape U _ _ _ _ _ _ _ _ E (valid_scheme_nonempty s Hs))
      as [rest' E'].
    rewrite E' in Hr. injection Hr as <-. exists rest'. reflexivity.
Qed.

(** The URL of a scheme and a host. *)
Lemma urlparse_scheme_host (s h d : str) :
  valid_scheme s ->
  printable h ->
  forallb (fun c => isascii_char c && negb (contains c (py ":/?#;@[]"))) h = true ->
  urlparse U (s ++ py "://" ++ h) d = Ok (s, h, [], [], [], []).
Proof.
  intros Hs Hph Hh.
  assert (Hb : forallb (fun c => negb (contains c (py ":/?#;@[]"))) h = true).
  { rewrite forallb_forall in *. intros x Hx. specialize (Hh x Hx).
    apply andb_true_iff in Hh. apply Hh. }
  assert (Ha : isascii h = true).
  { unfold isascii. rewrite forallb_forall in *. intros x Hx. specialize (Hh x Hx).
    apply andb_true_iff in Hh. apply Hh. }
  unfold urlparse, urlsplit. cbv zeta.
  fold (url_text (s ++ py "://" ++ h)).
  replace (s ++ py "://" ++ h) with (s ++ 58 :: (py "//" ++ h)) by reflexivity.
  rewrite (url_text_prefix s _ Hs).
  replace (remove_unsafe (py "//" ++ h)) with (py "//" ++ h)
    by (symmetry; apply remove_unsafe_printable;
        repeat (apply Forall_cons; [reflexivity|]); exact Hph).
  rewrite (split_scheme_prefix s _ _ Hs).
  rewrite startswith_prefix.
  unfold _splitnetloc. replace (skipn 2 (py "//" ++ h)) with h by reflexivity.
  rewrite break_at_none.
  - rewrite (contains_none 91 _ _ Hb), (contains_none 93 _ _ Hb) by reflexivity.
    cbn [andb orb bind contains existsb]. unfold _checknetloc. rewrite Ha, orb_true_r.
    cbn [bind]. rewrite andb_false_r. reflexivity.
  - rewrite forallb_forall in *. intros x Hx. specialize (Hb x Hx).
    apply negb_true_iff in Hb. apply negb_true_iff.
    destruct (contains x (py "/?#")) eqn:E; [|reflexivity].
    apply contains_in in E.
    assert (A : forallb (fun c => contains c (py ":/?#;@[]")) (py "/?#") = true)
      by (vm_compute; reflexivity).
    rewrite forallb_forall in A. rewrite (A x E) in Hb. discriminate.
Qed.

(** X9: [parse_url] turns a host name (ASCII, no control character or
    space, none of the characters that delimit the parts of a URL, and which
    the idna codec leaves as it is) into [http://] and the host name, with
    nothing after it. *)
Theorem parse_url_of_host_name (h : str) :
  h <> [] ->
  printable h ->
  forallb (fun c => isascii_char c && negb (contains c (py ":/?#;@[]"))) h = true ->
  uni_idna U h = Ok h ->
  parse_url U (PyStr h) = Ok (py "http://" ++ h).
Proof.
  intros Hne Hph Hh Hi.
  assert (Hb : forallb (fun c => negb (contains c (py ":/?#;@[]"))) h = true).
  { rewrite forallb_forall in *. intros x Hx. specialize (Hh x Hx).
    apply andb_true_iff in Hh. apply Hh. }
  assert (Hv : valid_scheme (py "http")) by exact http_valid_scheme.
  assert (Hp : urlparse U (py "http" ++ py "://" ++ h) [] = Ok (py "http", h, [], [], [], []))
    by (apply urlparse_scheme_host; assumption).
  assert (E1 : prepend_scheme_if_needed U h (py "http") = Ok (py "http" ++ py "://" ++ h)).
  { assert (Hph' : printable (py "http"))
      by (unfold printable; each_char).
    unfold prepend_scheme_if_needed. rewrite (urlparse_bare h (py "http")).
    { cbn [bind nonempty negb]. cbv beta iota.
      exact (f_equal Ok (urlunparse_scheme_host (py "http") h ltac:(discriminate) Hne)). }
    all: try assumption.
    - rewrite forallb_forall in *. intros x Hx. specialize (Hb x Hx).
      apply negb_true_iff in Hb. apply negb_true_iff.
      destruct (contains x (py ":?#;")) eqn:E; [|reflexivity].
      apply contains_in in E.
      assert (A : forallb (fun c => contains c (py ":/?#;@[]")) (py ":?#;") = true)
        by (vm_compute; reflexivity).
      rewrite forallb_forall in A. rewrite (A x E) in Hb. discriminate.
    - apply startswith_absent. apply (contains_none 47 _ _ Hb). reflexivity. }
  assert (E2 : urldefragauth U (py "http" ++ py "://" ++ h) = Ok (py "http" ++ py "://" ++ h)).
  { assert (Hn : nonempty h = true) by (destruct h; [contradiction | reflexivity]).
    unfold urldefragauth. rewrite Hp. cbn [bind]. rewrite Hn. cbn [negb].
    cbv beta iota zeta.
    rewrite rsplit1_last_absent by (apply (contains_none 64 _ _ Hb); reflexivity).
    exact (f_equal Ok (urlunparse_scheme_host (py "http") h ltac:(discriminate) Hne)). }
  assert (E : parse_url U (PyStr h) =
              (url <- prepend_scheme_if_needed U h (py "http") ;;
               url <- urldefragauth U url ;;
               ' (scheme, netloc, path, params, query, fragment) <- urlparse U url [] ;;
               if negb (str_in scheme allowed_schemes) then Raise InvalidScheme
               else netloc <- uni_idna U netloc ;;
                    Ok (urlunparse (scheme, netloc, path, params, query, fragment))))
    by (destruct h; [contradiction | reflexivity]).
  rewrite E, E1. cbn [bind]. rewrite E2. cbn [bind]. rewrite Hp. cbn [bind].
  replace (str_in (py "http") allowed_schemes) with true by reflexivity. cbn [negb].
  rewrite Hi. cbn [bind].
  exact (f_equal Ok (urlunparse_scheme_host (py "http") h ltac:(discriminate) Hne)).
Qed.

(** X10: what [parse_url] returns begins with [http:] or with [https:], and
    it returns only for a string that is not empty. *)
Theorem parse_url_returns_http_or_https (url : object) (r : str) :
  parse_url U url = Ok r ->
  (exists s, url = PyStr s /\ s <> [])
  /\ exists rest, r = py "http" ++ 58 :: rest \/ r = py "https" ++ 58 :: rest.
Proof.
  unfold parse_url. destruct url as [|[|a t]]; try discriminate.
  intros H. split; [exists (a :: t); split; [reflexivity | discriminate]|].
  destruct (prepend_scheme_if_needed U (a :: t) (py "http")) as [u1|]; cbn [bind] in H;
    [|discriminate].
  destruct (urldefragauth U u1) as [u2|]; cbn [bind] in H; [|discriminate].
  destruct (urlparse U u2 []) as [[[[[[s n] p] pa] q] f]|]; cbn [bind] in H;
    [|discriminate].
  destruct (str_in s allowed_schemes) eqn:Es; cbn [negb] in H; [|discriminate].
  destruct (uni_idna U n) as [n'|]; cbn [bind] in H; [|discriminate].
  injection H as <-.
  unfold str_in, allowed_schemes in Es. cbn [existsb] in Es.
  rewrite orb_false_r in Es. apply orb_true_iff in Es.
  destruct Es as [Es | Es]; apply str_eqb_eq in Es; subst s.
  - destruct (urlunparse_scheme (py "http") n' p pa q f) as [rest E]; [discriminate|].
    exists rest. left. exact E.
  - destruct (urlunparse_scheme (py "https") n' p pa q f) as [rest E]; [discriminate|].
    exists rest. right. exact E.
Qed.

End NormaliseMore.

Lemma prepend_scheme_to_bare_text_witness :
  prepend_scheme_if_needed ascii_only (py "example.com/a/b") (py "http")
  = Ok (py "http://example.com/a/b").
Proof.
  apply (prepend_scheme_to_bare_text ascii_only (py "example.com/a/b") (py "http"));
    try discriminate; try (vm_compute; reflexivity); unfold printable; each_char.
Defined.

Lemma prepend_scheme_keeps_scheme_witness :
  exists rest', py "ftp://example.com/" = py "ftp" ++ 58 :: rest'.
Proof.
  apply (prepend_scheme_keeps_scheme ascii_only (py "ftp") (py "//example.com/") (py "http")
           (py "ftp://example.com/")).
  - repeat split; try discriminate; vm_compute; reflexivity.
  - vm_compute. reflexivity.
Defined.

Lemma parse_url_of_host_name_witness :
  parse_url ascii_only (PyStr (py "example.com")) = Ok (py "http://example.com").
Proof.
  apply (parse_url_of_host_name ascii_only (py "example.com"));
    try discriminate; try (vm_compute; reflexivity); unfold printable; each_char.
Defined.

Lemma parse_url_returns_http_or_https_witness :
  (exists s, PyStr (py "HTTPS://user@Example.com/a#f") = PyStr s /\ s <> [])
  /\ exists rest, py "https://Example.com/a" = py "http" ++ 58 :: rest
                  \/ py "https://Example.com/a" = py "https" ++ 58 :: rest.
Proof.
  apply (parse_url_returns_http_or_https ascii_only
           (PyStr (py "HTTPS://user@Example.com/a#f")) (py "https://Example.com/a")).
  vm_compute. reflexivity.
Defined.

(** ** The fragment *)

Lemma without_contains (c : codepoint) (s : str) :
  without c s <-> contains c s = false.
Proof.
  unfold without. rewrite Forall_forall. split.
  - intros H. destruct (contains c s) eqn:E; [|reflexivity].
    apply contains_in in E. exfalso. apply (H c E). reflexivity.
  - intros H x Hx ->. apply contains_in in Hx. congruence.
Qed.

Lemma split1_Forall (P : codepoint -> Prop) (c : codepoint) (s : str) :
  Forall P s -> Forall P (fst (split1 c s)) /\ Forall P (snd (split1 c s)).
Proof.
  induction 1 as [|a s Ha Hs [IH1 IH2]]; cbn [split1]; [split; constructor|].
  destruct (a =? c); [split; [constructor | exact Hs]|].
  destruct (split1 c s) as [h r]. cbn [fst snd] in *.
  split; [constructor; assumption | assumption].
Qed.

Lemma split1_before (c : codepoint) (s : str) : without c (fst (split1 c s)).
Proof.
  unfold without. induction s as [|a s IH]; cbn [split1]; [constructor|].
  destruct (a =? c) eqn:E; [constructor|].
  destruct (split1 c s) as [h r]. cbn [fst] in *.
  constructor; [apply N.eqb_neq; exact E | exact IH].
Qed.

Lemma break_at_Forall (P : codepoint -> Prop) (stop : codepoint -> bool) (s : str) :
  Forall P s -> Forall P (fst (break_at stop s)) /\ Forall P (snd (break_at stop s)).
Proof.
  induction 1 as [|a s Ha Hs [IH1 IH2]]; cbn [break_at]; [split; constructor|].
  destruct (stop a); [split; [constructor | constructor; assumption]|].
  destruct (break_at stop s) as [h r]. cbn [fst snd] in *.
  split; [constructor; assumption | assumption].
Qed.

Lemma break_at_before (stop : codepoint -> bool) (s : str) :
  Forall (fun x => stop x = false) (fst (break_at stop s)).
Proof.
  induction s as [|a s IH]; cbn [break_at]; [constructor|].
  destruct (stop a) eqn:E; [constructor|].
  destruct (break_at stop s) as [h r]. cbn [fst] in *. constructor; assumption.
Qed.

Lemma rcut_Forall (P : codepoint -> Prop) (c : codepoint) (s : str) :
  Forall P s -> Forall P (fst (rcut c s)) /\ Forall P (snd (rcut c s)).
Proof.
  induction 1 as [|a s Ha Hs [IH1 IH2]]; cbn [rcut]; [split; constructor|].
  destruct (contains c s).
  - destruct (rcut c s) as [h r]. cbn [fst snd] in *.
    split; [constructor; assumption | assumption].
  - destruct (a =? c); cbn [fst snd]; split; repeat constructor; assumption.
Qed.

Lemma rsplit1_last_Forall (P : codepoint -> Prop) (c : codepoint) (s : str) :
  Forall P s -> Forall P (rsplit1_last c s).
Proof.
  induction 1 as [|a s Ha Hs IH]; cbn [rsplit1_last]; [constructor|].
  destruct (contains c s); [exact IH|].
  destruct (a =? c); [exact Hs | constructor; assumption].
Qed.

Lemma scheme_without_hash (x : str) :
  forallb (fun c => contains c scheme_chars) x = true -> without 35 (lower x).
Proof.
  intros H. unfold without, lower. apply Forall_map. rewrite forallb_forall in H.
  apply Forall_forall. intros c Hc E.
  destruct (scheme_chars_lower c (H c Hc)) as [A _]. rewrite E in A.
  vm_compute in A. discriminate.
Qed.

Lemma split_scheme_without_hash (url d : str) :
  without 35 d -> without 35 (fst (split_scheme url d)).
Proof.
  intros Hd. unfold split_scheme.
  destruct (find 58 url) as [[|i]|]; cbn [fst]; try exact Hd.
  destruct (starts_with_letter url
            && forallb (fun c => contains c scheme_chars) (skipn 1 (firstn (S i) url)))
    eqn:E; cbn [fst]; [|exact Hd].
  apply scheme_without_hash. apply scheme_prefix_chars. exact E.
Qed.

Section Fragment.
Context (U : Unicode).

Lemma urlsplit_without_hash (url d s n p q f : str) :
  without 35 (scheme_text d) ->
  urlsplit U url d = Ok (s, n, p, q, f) ->
  without 35 s /\ without 35 n /\ without 35 p /\ without 35 q.
Proof.
  intros Hd. unfold urlsplit. cbv zeta. fold (url_text url). fold (scheme_text d).
  pose proof (split_scheme_without_hash (url_text url) (scheme_text d) Hd) as Hs0.
  destruct (split_scheme (url_text url) (scheme_text d)) as [s0 u0]. cbn [fst] in Hs0.
  assert (Hnet : forall x, (if startswith u0 (py "//")
                  then let '(netloc, rest) := _splitnetloc u0 in
                       if contains 91 netloc && negb (contains 93 netloc)
                          || contains 93 netloc && negb (contains 91 netloc)
                       then Raise ValueError
                       else if contains 91 netloc && contains 93 netloc
                               && negb (bracketed_netloc U netloc)
                       then Raise ValueError
                       else Ok (netloc, rest)
                  else Ok ([], u0)) = Ok x -> without 35 (fst x)).
  { intros [netloc rest]. destruct (startswith u0 (py "//")).
    - unfold _splitnetloc.
      pose proof (break_at_before (fun c => contains c (py "/?#")) (skipn 2 u0)) as Hb.
      destruct (break_at _ (skipn 2 u0)) as [n0 r0]. cbn [fst] in Hb.
      destruct (_ || _); [discriminate|].
      destruct (_ && negb (bracketed_netloc U n0)); [discriminate|].
      intros E. injection E as <- <-.
      cbn [fst]. unfold without. eapply Forall_impl; [|exact Hb].
      intros a Ha ->. vm_compute in Ha. discriminate.
    - intros E. injection E as <- <-. constructor. }
  destruct (if startswith u0 (py "//") then _ else _) as [[netloc rest]|] eqn:En;
    cbn [bind]; [|discriminate].
  specialize (Hnet _ eq_refl). cbn [fst] in Hnet.
  assert (H1 : without 35 (fst (if contains 35 rest then split1 35 rest else (rest, [])))).
  { destruct (contains 35 rest) eqn:E; [apply split1_before|].
    cbn [fst]. apply without_contains. exact E. }
  destruct (if contains 35 rest then split1 35 rest else (rest, [])) as [url1 frag].
  cbn [fst] in H1.
  assert (H2 : without 35 (fst (if contains 63 url1 then split1 63 url1 else (url1, [])))
               /\ without 35 (snd (if contains 63 url1 then split1 63 url1 else (url1, [])))).
  { destruct (contains 63 url1); [apply split1_Forall; exact H1|].
    cbn [fst snd]. split; [exact H1 | constructor]. }
  destruct (if contains 63 url1 then split1 63 url1 else (url1, [])) as [url2 query].
  cbn [fst snd] in H2.
  destruct (_checknetloc U netloc); cbn [bind]; [|discriminate].
  intros E. injection E as <- <- <- <- <-. tauto.
Qed.

Lemma urlparse_without_hash (url d s n p pa q f : str) :
  without 35 (scheme_text d) ->
  urlparse U url d = Ok (s, n, p, pa, q, f) ->
  without 35 s /\ without 35 n /\ without 35 p /\ without 35 pa /\ without 35 q.
Proof.
  intros Hd. unfold urlparse.
  destruct (urlsplit U url d) as [[[[[s0 n0] p0] q0] f0]|] eqn:E; cbn [bind];
    [|discriminate].
  destruct (urlsplit_without_hash _ _ _ _ _ _ _ Hd E) as (Hs & Hn & Hp & Hq).
  assert (H : without 35 (fst (if str_in s0 uses_params && contains 59 p0
                               then _splitparams p0 else (p0, [])))
              /\ without 35 (snd (if str_in s0 uses_params && contains 59 p0
                                  then _splitparams p0 else (p0, [])))).
  { destruct (str_in s0 uses_params && contains 59 p0);
      [|cbn [fst snd]; split; [exact Hp | constructor]].
    unfold _splitparams.
    destruct (rcut_Forall _ 47 p0 Hp) as [Hh Ht].
    destruct (rcut 47 p0) as [head tail]. cbn [fst snd] in *.
    destruct (contains 59 tail); [|cbn [fst snd]; split; [exact Hp | constructor]].
    destruct (split1_Forall _ 59 tail Ht) as [Ha Hb].
    destruct (split1 59 tail) as [a b]. cbn [fst snd] in *.
    split; [apply Forall_app; split; assumption | assumption]. }
  destruct (if str_in s0 uses_params && contains 59 p0
            then _splitparams p0 else (p0, [])) as [p1 pa1]. cbn [fst snd] in H.
  intros E'. injection E' as <- <- <- <- <- <-. tauto.
Qed.

Lemma urlunparse_without_hash (s n p pa q : str) :
  without 35 s -> without 35 n -> without 35 p -> without 35 pa -> without 35 q ->
  contains 35 (urlunparse (s, n, p, pa, q, [])) = false.
Proof.
  intros Hs Hn Hp Hpa Hq. apply without_contains in Hs, Hn, Hp, Hpa, Hq.
  unfold urlunparse, urlunsplit. cbn [nonempty].
  repeat match goal with
         | |- context [if ?b then _ else _] => destruct b
         end;
    rewrite ?contains_app, ?Hs, ?Hn, ?Hp, ?Hpa, ?Hq; reflexivity.
Qed.

(** X8: [urldefragauth] removes the fragment: what it returns has no hash
    sign. *)
Theorem urldefragauth_returns_no_fragment (url r : str) :
  urldefragauth U url = Ok r -> contains 35 r = false.
Proof.
  unfold urldefragauth.
  destruct (urlparse U url []) as [[[[[[s n] p] pa] q] f]|] eqn:E; cbn [bind];
    [|discriminate].
  destruct (urlparse_without_hash url [] _ _ _ _ _ _ (Forall_nil _) E)
    as (Hs & Hn & Hp & Hpa & Hq).
  destruct (negb (nonempty n)); cbv beta iota zeta; intros H; injection H as <-;
    apply urlunparse_without_hash; try assumption;
    apply rsplit1_last_Forall; assumption.
Qed.

End Fragment.

(** ** [unshort_url] and [extract_url] *)

Section Redirects.
Context (U : Unicode) (W : Network) (C : Config).

(** X14: the loop of [unshort_url] has no bound on the redirects it follows:
    when the request for a URL is answered by a redirect that, cleaned and
    parsed, is that URL again, no number of requests ends the loop. *)
Theorem unshort_loop_follows_a_cycle_for_ever (parse_documents : bool)
  (kwargs : Options) (scheme netloc path params query fragment : str)
  (response : Response) (location cleaned_url : str) :
  let request := if nonempty query then path ++ py "?" ++ query else path in
  creat_connection W scheme netloc = Ok tt ->
  http_get W scheme netloc request = Ok response ->
  existsb (N.eqb (status response)) (redirect_codes C) = true ->
  Location response = Some location ->
  parse_rules U W C (redirect_url scheme netloc request location) kwargs = Ok cleaned_url ->
  urlparse U cleaned_url [] = Ok (scheme, netloc, path, params, query, fragment) ->
  forall (fuel : nat) (bound : bool),
    unshort_loop U W C fuel parse_documents kwargs
      (scheme, netloc, path, params, query, fragment) bound = Ok None.
Proof.
  intros request Hc Hg Hs Hl Hp Hu fuel bound.
  induction fuel as [|fuel IH]; [reflexivity|].
  cbn [unshort_loop]. rewrite Hc. cbn [bind]. fold request.
  rewrite Hg. cbn [bind]. rewrite Hs, Hl, Hp. cbn [bind]. rewrite Hu. cbn [bind].
  exact IH.
Qed.

Lemma extract_loop_fails (response : Response) (url : str) (kwargs : Options)
  (d : str) (rs : list RedirectRule) (document : option str) :
  (document = Some d \/ (document = None /\ Py.document response = Ok d)) ->
  Forall (rule_fails url d) rs ->
  extract_loop U W C response url kwargs rs document = Ok None.
Proof.
  intros Hd H. revert document Hd.
  induction H as [|r rs Hr _ IH]; intros document Hd; cbn [extract_loop]; [reflexivity|].
  destruct (matches (rr_pattern r) url) eqn:Em; [|apply IH; exact Hd].
  assert (E : match document with Some d0 => Ok d0 | None => Py.document response end
              = Ok d).
  { destruct Hd as [-> | [-> Hd]]; [reflexivity | exact Hd]. }
  rewrite E. cbn [bind]. rewrite (Hr Em). apply IH. left. reflexivity.
Qed.

Lemma extract_loop_unmatched (response : Response) (url : str) (kwargs : Options)
  (rs : list RedirectRule) (document : option str) :
  Forall (fun r => matches (rr_pattern r) url = false) rs ->
  extract_loop U W C response url kwargs rs document = Ok None.
Proof.
  induction 1 as [|r rs Hr _ IH]; cbn [extract_loop]; [reflexivity|].
  rewrite Hr. exact IH.
Qed.

(** X15: [extract_url] returns [None], and does not read the body, when no
    rule of [redirects] has a pattern that matches the URL; and it returns
    [None] when the body is read and no expression of the rules whose
    pattern matches the URL matches the body. *)
Theorem extract_url_finds_nothing (response : Response) (url : str)
  (kwargs : Options) :
  (Forall (fun r => matches (rr_pattern r) url = false) (redirects C) ->
   extract_url U W C response url kwargs = Ok None)
  /\ (forall d, document response = Ok d ->
      Forall (rule_fails url d) (redirects C) ->
      extract_url U W C response url kwargs = Ok None).
Proof.
  split.
  - apply extract_loop_unmatched.
  - intros d Hd H. apply (extract_loop_fails response url kwargs d); [|exact H].
    right. split; [reflexivity | exact Hd].
Qed.

(** X16: the first rule that gives a URL decides: when the rules before a
    rule give none, the pattern of the rule matches the URL and one of its
    expressions matches the body, [extract_url] returns the first group of
    the first such expression, cleaned, whatever rules come after. *)
Theorem extract_url_first_rule_wins (response : Response) (url : str)
  (kwargs : Options) (d g : str) (before after : list RedirectRule)
  (rule : RedirectRule) :
  redirects C = before ++ rule :: after ->
  document response = Ok d ->
  Forall (rule_fails url d) before ->
  matches (rr_pattern rule) url = true ->
  first_group d (rr_redirects rule) = Some g ->
  extract_url U W C response url kwargs
  = (cleaned <- parse_rules U W C g kwargs ;; Ok (Some cleaned)).
Proof.
  intros Hr Hd Hb Hm Hg. unfold extract_url. rewrite Hr. clear Hr.
  assert (A : forall document,
            (document = Some d \/ (document = None /\ Py.document response = Ok d)) ->
            extract_loop U W C response url kwargs (before ++ rule :: after) document
            = (cleaned <- parse_rules U W C g kwargs ;; Ok (Some cleaned))).
  { induction Hb as [|r rs Hf _ IH]; intros document Hdoc.
    - cbn [app extract_loop]. rewrite Hm.
      assert (E : match document with Some d0 => Ok d0 | None => Py.document response end
                  = Ok d).
      { destruct Hdoc as [-> | [-> Hdoc]]; [reflexivity | exact Hdoc]. }
      rewrite E. cbn [bind]. rewrite Hg. reflexivity.
    - cbn [app extract_loop].
      destruct (matches (rr_pattern r) url) eqn:Em; [|apply IH; exact Hdoc].
      assert (E : match document with Some d0 => Ok d0 | None => Py.document response end
                  = Ok d).
      { destruct Hdoc as [-> | [-> Hdoc]]; [reflexivity | exact Hdoc]. }
      rewrite E. cbn [bind]. rewrite (Hf Em). apply IH. left. reflexivity. }
  apply A. right. split; [reflexivity | exact Hd].
Qed.

End Redirects.

Lemma unshort_loop_follows_a_cycle_for_ever_witness :
  unshort_loop ascii_only loop_network config 1000 false default_options
    (py "http", py "loop.example", py "/loop", [], [], []) false = Ok None.
Proof.
  apply (unshort_loop_follows_a_cycle_for_ever ascii_only loop_network config false
           default_options (py "http") (py "loop.example") (py "/loop") [] [] []
           (response 301 (Some (py "/loop"))) (py "/loop") (py "http://loop.example/loop"));
    vm_compute; reflexivity.
Defined.

Lemma extract_url_finds_nothing_witness :
  extract_url ascii_only test_network config_body (page (py "?y=1 go:http://c.example/"))
    (py "http://a.example/") default_options = Ok None.
Proof.
  apply (proj2 (extract_url_finds_nothing ascii_only test_network config_body
                  (page (py "?y=1 go:http://c.example/")) (py "http://a.example/")
                  default_options) (py "?y=1 go:http://c.example/")).
  - reflexivity.
  - repeat (apply Forall_cons; [intros H; vm_compute in H |- *; congruence|]).
    apply Forall_nil.
Defined.

Lemma extract_url_first_rule_wins_witness :
  extract_url ascii_only test_network config_body (page (py "go:http://c.example/?utm_source=1"))
    (py "http://b.example/") default_options
  = Ok (Some (py "http://c.example/?")).
Proof.
  refine (eq_trans
    (extract_url_first_rule_wins ascii_only test_network config_body
       (page (py "go:http://c.example/?utm_source=1")) (py "http://b.example/")
       default_options (py "go:http://c.example/?utm_source=1")
       (py "http://c.example/?utm_source=1")
       [ {| rr_pattern := literal (py "http://a.example/");
            rr_redirects := [field_rule (py "x")] |} ]
       [ {| rr_pattern := literal (py "http://b.example/");
            rr_redirects := [unwrap (py "g")] |} ]
       {| rr_pattern := literal (py "http://b.example/");
          rr_redirects := [field_rule (py "y"); unwrap (py "go:")] |}
       eq_refl eq_refl _ _ _) _).
  - apply Forall_cons; [intros H; vm_compute in H; discriminate | apply Forall_nil].
  - vm_compute. reflexivity.
  - vm_compute. reflexivity.
  - vm_compute. reflexivity.
Defined.

(** ** Relative redirects *)

Lemma rcut_last (c : codepoint) (dir leaf : str) :
  contains c leaf = false -> rcut c (dir ++ c :: leaf) = (dir ++ [c], leaf).
Proof.
  intros H. induction dir as [|a dir IH]; cbn [app rcut].
  - rewrite H, N.eqb_refl. reflexivity.
  - rewrite contains_app. cbn [contains existsb]. rewrite N.eqb_refl, orb_true_r.
    rewrite IH. reflexivity.
Qed.

Lemma startswith_one (s : str) (c : codepoint) :
  startswith s [c] = match s with a :: _ => c =? a | [] => false end.
Proof.
  destruct s as [|a s]; [reflexivity|]. cbn [startswith].
  destruct s; rewrite andb_true_r; reflexivity.
Qed.

(** The directory of a path whose last segment is [leaf]. *)
Lemma dirname_of_leaf (dir leaf : str) :
  contains 47 leaf = false ->
  dir = [] \/ endswith dir (py "/") = false ->
  dirname (dir ++ 47 :: leaf) = if nonempty dir then dir else py "/".
Proof.
  intros Hl Hd. unfold dirname. rewrite (rcut_last 47 dir leaf Hl). cbn [fst].
  destruct Hd as [-> | Hd]; [reflexivity|].
  destruct dir as [|a dir]; [reflexivity|]. cbn [nonempty andb].
  unfold endswith in Hd. change (rev (py "/")) with [47] in Hd.
  rewrite startswith_one in Hd.
  assert (Hr : rev ((a :: dir) ++ [47]) = 47 :: rev (a :: dir))
    by (rewrite rev_app_distr; reflexivity).
  assert (Hne : rev (a :: dir) <> []).
  { intros E. apply (f_equal (@rev N)) in E. rewrite rev_involutive in E. discriminate. }
  destruct (rev (a :: dir)) as [|z l] eqn:Er; [contradiction|].
  assert (Hall : forallb (N.eqb 47) ((a :: dir) ++ [47]) = false).
  { destruct (forallb (N.eqb 47) ((a :: dir) ++ [47])) eqn:E; [|reflexivity].
    rewrite forallb_forall in E. assert (Hin : In z (a :: dir)).
    { apply in_rev. rewrite Er. left. reflexivity. }
    rewrite <- Hd. symmetry. apply E. apply in_or_app. left. exact Hin. }
  rewrite Hall. cbn [negb]. unfold rstrip. rewrite Hr. cbn [lstrip].
  rewrite N.eqb_refl.
  assert (Hz : (z =? 47) = false) by (rewrite N.eqb_sym; exact Hd).
  rewrite Hz. rewrite <- Er. apply rev_involutive.
Qed.

(** X13: a location that is relative (it begins neither with a slash nor with
    [http://] or [https://]) replaces the last segment of the path of the
    request. *)
Theorem redirect_url_relative (scheme netloc dir leaf location : str) :
  nonempty scheme = true -> nonempty netloc = true ->
  contains 47 leaf = false ->
  dir = [] \/ (startswith dir (py "/") = true /\ endswith dir (py "/") = false) ->
  startswith location (py "/") = false ->
  startswith location (py "http://") || startswith location (py "https://") = false ->
  redirect_url scheme netloc (dir ++ 47 :: leaf) location
  = scheme ++ py "://" ++ netloc ++ dir ++ py "/" ++ location.
Proof.
  intros Hs Hn Hl Hd Hl1 Hl2. unfold redirect_url. rewrite Hl2, Hl1.
  rewrite (dirname_of_leaf dir leaf Hl) by tauto.
  assert (Hj : path_join (if nonempty dir then dir else py "/") location
               = dir ++ py "/" ++ location).
  { unfold path_join. rewrite Hl1.
    destruct Hd as [-> | [_ Hd]]; [reflexivity|].
    destruct dir as [|a dir]; [reflexivity|]. cbn [nonempty negb orb].
    rewrite Hd. reflexivity. }
  rewrite Hj. cbv zeta.
  assert (Hsl : startswith (dir ++ py "/" ++ location) (py "/") = true).
  { destruct Hd as [-> | [Hd _]]; [apply (startswith_prefix (py "/"))|].
    destruct dir as [|a dir]; [discriminate|].
    change (py "/") with [47] in *. rewrite startswith_one in Hd.
    cbn [app]. rewrite startswith_one. exact Hd. }
  unfold urlunparse, urlunsplit. cbn [nonempty]. rewrite Hn, Hs, Hsl.
  cbn [orb andb negb]. rewrite andb_false_r.
  change (py "://") with ([58] ++ py "//"). rewrite <- !app_assoc. reflexivity.
Qed.

Lemma redirect_url_relative_witness :
  redirect_url (py "http") (py "h.example") (py "/a/b/old?x=1") (py "new")
  = py "http://h.example/a/b/new".
Proof.
  apply (redirect_url_relative (py "http") (py "h.example") (py "/a/b") (py "old?x=1")
           (py "new")); try reflexivity.
  right. split; reflexivity.
Defined.

Lemma redirect_url_slash_witness :
  redirect_url (py "http") (py "h.example") (py "/a/b") (py "/c?x=1")
  = py "http://h.example/c?x=1".
Proof.
  apply (redirect_url_slash (py "http") (py "h.example") (py "/a/b") (py "/c?x=1"));
    reflexivity.
Defined.

(** ** [is_private] *)




Section Private.
Context (U : Unicode) (W : Network) (C : Config).


End Private.


(** ** More on the functions above *)

Lemma skip_blocked_drops_complete_providers_witness :
  parse_rules ascii_only test_network (with_patterns config [blocked_provider; global_rules])
    (py "http://g.co/a?utm_source=1") only_skip_blocked
  = Ok (py "http://g.co/a?").
Proof.
  rewrite (skip_blocked_drops_complete_providers ascii_only test_network
             (with_patterns config [blocked_provider; global_rules])
             only_skip_blocked (py "http://g.co/a?utm_source=1") eq_refl).
  vm_compute. reflexivity.
Defined.

Lemma urldefragauth_returns_no_fragment_witness :
  contains 35 (py "http://h.example/a;p?q=1") = false.
Proof.
  apply (urldefragauth_returns_no_fragment ascii_only
           (py "http://user:pw@h.example/a;p?q=1#frag#more") (py "http://h.example/a;p?q=1")).
  vm_compute. reflexivity.
Defined.

(** X3: the only exception that [requote_uri] raises is
    [UnicodeEncodeError], and it raises it only for a string with a
    surrogate code point. *)
Theorem requote_uri_raises_for_surrogates_only (U : Unicode) (uri : str) (e : exn) :
  requote_uri U uri = Raise e ->
  e = UnicodeError /\ existsb is_surrogate uri = true.
Proof.
  intros H.
  assert (Hq : quote uri safe_without_percent = Raise e).
  { unfold requote_uri, try_except_ValueError in H.
    destruct (unquote_unreserved U uri) as [u|e0] eqn:Eu; cbn [bind] in H.
    - destruct (quote u safe_with_percent) as [r|e1] eqn:Eq; [discriminate|].
      apply quote_raise in Eq. subst e1. exact H.
    - apply unquote_unreserved_raise in Eu. subst e0. exact H. }
  split; [apply (quote_raise _ _ _ Hq)|].
  destruct (existsb is_surrogate uri) eqn:Es; [reflexivity|].
  destruct (quote_ok uri safe_without_percent) as [r Hr]; [|congruence].
  unfold encodable. apply Forall_forall. intros c Hc.
  destruct (is_surrogate c) eqn:E; [|reflexivity].
  assert (existsb is_surrogate uri = true) by (apply existsb_exists; eauto).
  congruence.
Qed.

Lemma requote_uri_raises_for_surrogates_only_witness :
  UnicodeError = UnicodeError /\ existsb is_surrogate [97; 0xDC00; 98] = true.
Proof.
  apply (requote_uri_raises_for_surrogates_only ascii_only [97; 0xDC00; 98] UnicodeError).
  vm_compute. reflexivity.
Defined.

(** X11: a URL that [parse_url] returns has a scheme that
    [creat_connection] takes: parsed, its scheme is http or https, so
    [creat_connection] does not raise [InvalidScheme] for it, and does what
    the constructor of the connection does with the netloc. *)
Theorem parse_url_result_is_connectable (U : Unicode) (W : Network) (url : object)
  (r scheme netloc path params query fragment : str) :
  parse_url U url = Ok r ->
  urlparse U r [] = Ok (scheme, netloc, path, params, query, fragment) ->
  (scheme = py "http" \/ scheme = py "https")
  /\ creat_connection W scheme netloc <> Raise InvalidScheme
  /\ creat_connection W scheme netloc = HTTPConnection W netloc.
Proof.
  intros Hr Hp.
  assert (Hv : forall s, s = py "http" \/ s = py "https" -> valid_scheme s)
    by (intros s [-> | ->]; repeat split; try discriminate; vm_compute; reflexivity).
  assert (Hs : scheme = py "http" \/ scheme = py "https").
  { unfold parse_url in Hr. destruct url as [|[|a t]]; try discriminate.
    destruct (prepend_scheme_if_needed U (a :: t) (py "http")) as [u1|]; cbn [bind] in Hr;
      [|discriminate].
    destruct (urldefragauth U u1) as [u2|]; cbn [bind] in Hr; [|discriminate].
    destruct (urlparse U u2 []) as [[[[[[s n] p] pa] q] f]|]; cbn [bind] in Hr;
      [|discriminate].
    destruct (str_in s allowed_schemes) eqn:Es; cbn [negb] in Hr; [|discriminate].
    destruct (uni_idna U n) as [n'|]; cbn [bind] in Hr; [|discriminate].
    injection Hr as <-.
    unfold str_in, allowed_schemes in Es. cbn [existsb] in Es.
    rewrite orb_false_r in Es. apply orb_true_iff in Es.
    assert (Hs : s = py "http" \/ s = py "https")
      by (destruct Es as [Es | Es]; apply str_eqb_eq in Es; auto).
    destruct (urlunparse_scheme s n' p pa q f (valid_scheme_nonempty s (Hv s Hs)))
      as [rest E].
    assert (Hp' : urlparse U (s ++ 58 :: rest) []
                  = Ok (scheme, netloc, path, params, query, fragment))
      by (rewrite <- E; exact Hp).
    apply urlparse_scheme in Hp'.
    rewrite (url_text_prefix s rest (Hv s Hs)), (split_scheme_prefix s _ _ (Hv s Hs)) in Hp'.
    cbn [fst] in Hp'. subst scheme. exact Hs. }
  split; [exact Hs|].
  assert (E : creat_connection W scheme netloc = HTTPConnection W netloc)
    by (destruct Hs as [-> | ->]; reflexivity).
  split; [|exact E]. rewrite E. unfold HTTPConnection.
  destruct (http_accepts W netloc); discriminate.
Qed.

Lemma parse_url_result_is_connectable_witness :
  (py "http" = py "http" \/ py "http" = py "https")
  /\ creat_connection test_network (py "http") (py "example.com:8080") <> Raise InvalidScheme
  /\ creat_connection test_network (py "http") (py "example.com:8080")
     = HTTPConnection test_network (py "example.com:8080").
Proof.
  apply (parse_url_result_is_connectable ascii_only test_network
           (PyStr (py "u@example.com:8080/a#b"))
           (py "http://example.com:8080/a") (py "http") (py "example.com:8080")
           (py "/a") [] [] []); vm_compute; reflexivity.
Defined.
